(** * Guardian: address screening of transactions (package [guardian])

    A shallow embedding of [guardian/guardian.go].  The package keeps two
    process-wide variables ([instance] and [initOnce]), allocates [Guardian]
    structs behind pointers, and talks to four outside packages: go-ethereum's
    [core/types] and [log], addressdb's [store] and [reload], and the Go
    runtime ([os/user], [runtime], [path/filepath], [strings], [sync]).

    Go code is sequential here: one goroutine calls the package's functions one
    after the other.  Every function of the package becomes a computation in a
    small state monad over [World]; a computation either returns or aborts
    (nil dereference, or a [sync.Mutex] locked twice by the only goroutine).
    Calls that leave the package are recorded in the world's [trace], in the
    order in which the code makes them. *)

From Stdlib Require Import String Ascii Bool Arith Lia List.
From stdpp Require Import base option list.
Import ListNotations.

Local Open Scope string_scope.
Local Open Scope list_scope.

(** ** Go values *)

(** A Go [error] value, by its message; [None] is the nil error. *)
Definition error : Type := string.

(** A Go pointer to a heap cell: [None] is nil, [Some l] the cell at [l]. *)
Definition ptr : Type := option nat.

(** ** [strings.ToLower]

    The standard library lowers an ASCII-only string byte by byte
    (['A'..'Z'] gain ['a' - 'A']); a string with a byte at or above
    [utf8.RuneSelf] goes through [strings.Map(unicode.ToLower, s)], which is
    taken as a parameter of the runtime below. *)
Module strings.

Definition RuneSelf : nat := 128.

Definition isUpper (c : ascii) : bool :=
  ((65 <=? nat_of_ascii c) && (nat_of_ascii c <=? 90))%nat.

Definition lowerByte (c : ascii) : ascii :=
  if isUpper c then ascii_of_nat (nat_of_ascii c + 32) else c.

Fixpoint isASCII (s : string) : bool :=
  match s with
  | EmptyString => true
  | String c s' => (nat_of_ascii c <? RuneSelf)%nat && isASCII s'
  end.

Fixpoint lowerASCII (s : string) : string :=
  match s with
  | EmptyString => EmptyString
  | String c s' => String (lowerByte c) (lowerASCII s')
  end.

Definition ToLower (mapUnicodeLower : string -> string) (s : string) : string :=
  if isASCII s then lowerASCII s else mapUnicodeLower s.

(** Two bytes that are the same letter up to case, or the same byte. *)
Definition sameByteFold (c d : ascii) : Prop :=
  c = d \/ (isUpper c = true /\ d = lowerByte c) \/ (isUpper d = true /\ c = lowerByte d).

(** Two strings that differ only in the case of their ASCII letters. *)
Fixpoint differOnlyInCase (s t : string) : Prop :=
  match s, t with
  | EmptyString, EmptyString => True
  | String c s', String d t' => sameByteFold c d /\ differOnlyInCase s' t'
  | _, _ => False
  end.

(** Some byte of the string is an upper-case ASCII letter. *)
Fixpoint hasUpper (s : string) : bool :=
  match s with
  | EmptyString => false
  | String c s' => isUpper c || hasUpper s'
  end.

End strings.

(** ** The outside packages *)

(** go-ethereum [common] and [core/types]: addresses, transactions, signers
    and sender recovery. *)
Class GoEthereum : Type := {
  Address : Type;
  Signer : Type;
  Transaction : Type;
  (** [common.Address.Hex]: the checksummed hexadecimal string. *)
  Address_Hex : Address -> string;
  (** [tx.To()]: nil for a contract creation. *)
  Transaction_To : Transaction -> option Address;
  (** [tx.Hash().Hex()]. *)
  Transaction_HashHex : Transaction -> string;
  (** [types.Sender(signer, tx)], a Go pair of a value and an error. *)
  types_Sender : Signer -> Transaction -> Address * option error
}.

(** addressdb [store] and [reload]: the Bloom filter store, the file watcher
    and the reload manager.  A store stands for its contents at the time of
    the calls under study: the reloads that a started manager performs in
    the background are not part of the sequential run, and nothing below
    speaks of lookups made before and after one. *)
Class AddressDB : Type := {
  BloomFilterStore : Type;
  FileWatcherNotifier : Type;
  ReloadManager : Type;
  (** The [CheckAddress] method of a [BloomFilterStore]. *)
  store_CheckAddress : BloomFilterStore -> string -> bool * option error;
  (** [store.NewBloomFilterStoreFromFile(path, &address.EVMAddressHandler{})]. *)
  NewBloomFilterStoreFromFile : string -> option BloomFilterStore * option error;
  (** [reload.NewFileWatcherNotifier(path, interval)], the interval in seconds. *)
  NewFileWatcherNotifier : string -> nat -> option FileWatcherNotifier * option error;
  (** [reload.NewReloadManager(filter, notifier)]. *)
  NewReloadManager : option BloomFilterStore -> option FileWatcherNotifier -> ReloadManager;
  (** The [Start(ctx)] and [Stop()] methods of a [ReloadManager]. *)
  manager_Start : ReloadManager -> option error;
  manager_Stop : ReloadManager -> option error
}.

(** The struct handed to [logFilteredEntry] on a hit, with the fields
    [CheckTransaction]'s callee fills in. *)
Record filteredTxLog `{GoEthereum} : Type := {
  filteredAddress : string;
  from : string;
  transaction : Transaction
}.

(** Modelled from the spec: [logFilteredEntry], a function of this package
    that lives outside [guardian.go]; the spec gives it as the
    FilteredEntryLogger, "log(entry) -> error".  Whether the write of an
    entry fails is the only thing the caller sees. *)
Class FilteredEntryLogger `{GoEthereum} : Type := {
  writeFilteredEntry : filteredTxLog -> option error
}.

(** The Go runtime and operating system as the package sees them. *)
Class Runtime : Type := {
  (** [runtime.GOOS]. *)
  GOOS : string;
  (** [user.Current()]: the home directory of the current user, or an error. *)
  user_Current : string * option error;
  (** [filepath.Join] of two elements. *)
  filepath_Join : string -> string -> string;
  (** [strings.Map(unicode.ToLower, s)], the non-ASCII path of [strings.ToLower]. *)
  unicode_MapToLower : string -> string
}.

(** ** The data of the package *)

Definition bloomFilterFilename : string := "bloom_filter.gob".
Definition linuxPath : string := "geth/guardian".
Definition darwinPath : string := "Library/Story/geth/guardian".

(** [type Config struct]. *)
Record Config : Type := {
  FilterFilePath : string;
  Disabled : bool
}.

Section Package.

Context {geth : GoEthereum} {logger : FilteredEntryLogger} {adb : AddressDB} {rt : Runtime}.

(** [type Guardian struct]; [mu] is [true] while the mutex is held. *)
Record Guardian : Type := {
  filter : option BloomFilterStore;
  manager : option ReloadManager;
  mu : bool
}.

Inductive Level : Type := LvlInfo | LvlWarn | LvlError.

(** What the package does to the outside, in order. *)
Inductive Event : Type :=
| EvLog (lvl : Level) (msg : string) (ctx : list (string * string))
| EvCheckAddress (query : string)
| EvFilteredEntry (entry : filteredTxLog)
| EvLoadFilter (path : string)
| EvWatchFile (path : string) (seconds : nat)
| EvManagerStart (m : ReloadManager)
| EvManagerStop (m : ReloadManager).

(** The package-level variables, the heap of [Guardian] structs and the
    trace.  [initOnce] is the [done] flag of the [sync.Once]. *)
Record World : Type := {
  instance : ptr;
  initOnce : bool;
  heap : list Guardian;
  trace : list Event
}.

(** The state of the package when the process starts. *)
Definition startWorld : World :=
  {| instance := None; initOnce := false; heap := []; trace := [] |}.

(** ** The monad *)

Inductive Abort : Type :=
| NilDereference
| Deadlock.

Inductive Outcome (A : Type) : Type :=
| Ret (a : A) (w : World)
| Stuck (why : Abort) (w : World).
Global Arguments Ret {A} a w.
Global Arguments Stuck {A} why w.

Definition M (A : Type) : Type := World -> Outcome A.

Definition ret {A : Type} (a : A) : M A := fun w => Ret a w.

Definition bind {A B : Type} (m : M A) (k : A -> M B) : M B :=
  fun w =>
    match m w with
    | Ret a w' => k a w'
    | Stuck why w' => Stuck why w'
    end.

Definition panic {A : Type} (why : Abort) : M A := fun w => Stuck why w.

Definition world_of {A : Type} (o : Outcome A) : World :=
  match o with
  | Ret _ w => w
  | Stuck _ w => w
  end.

End Package.

Declare Scope go_scope.
Delimit Scope go_scope with go.
Notation "'let*' x ':=' m 'in' k" := (bind m (fun x => k))
  (at level 10, x pattern, m at level 100, k at level 200) : go_scope.
Local Open Scope go_scope.


(** ** The functions of the package *)

Section Functions.

Context {geth : GoEthereum} {logger : FilteredEntryLogger} {adb : AddressDB} {rt : Runtime}.

(** *** State primitives *)

(** The world after the calls [evs] left the package. *)
Definition addTrace (w : World) (evs : list Event) : World :=
  {| instance := instance w; initOnce := initOnce w;
     heap := heap w; trace := trace w ++ evs |}.

Definition emit (e : Event) : M unit := fun w => Ret tt (addTrace w [e]).

Definition getInstanceVar : M ptr := fun w => Ret (instance w) w.

Definition setInstanceVar (p : ptr) : M unit :=
  fun w => Ret tt {| instance := p; initOnce := initOnce w;
                     heap := heap w; trace := trace w |}.

Definition setInitOnce (done : bool) : M unit :=
  fun w => Ret tt {| instance := instance w; initOnce := done;
                     heap := heap w; trace := trace w |}.

(** [*p]: a nil pointer (or one that points nowhere) aborts. *)
Definition load (p : ptr) : M Guardian :=
  fun w =>
    match p with
    | None => Stuck NilDereference w
    | Some l =>
      match heap w !! l with
      | Some g => Ret g w
      | None => Stuck NilDereference w
      end
    end.

Definition setMu (l : nat) (locked : bool) : M unit :=
  fun w =>
    match heap w !! l with
    | Some g =>
      Ret tt {| instance := instance w; initOnce := initOnce w;
                heap := <[l := {| filter := filter g; manager := manager g; mu := locked |}]> (heap w);
                trace := trace w |}
    | None => Stuck NilDereference w
    end.

(** [&Guardian{...}]: a new cell at the end of the heap. *)
Definition alloc (g : Guardian) : M ptr :=
  fun w => Ret (Some (length (heap w)))
               {| instance := instance w; initOnce := initOnce w;
                  heap := heap w ++ [g]; trace := trace w |}.

(** [p.mu.Lock()]: the only goroutine blocks for ever on a held mutex. *)
Definition Lock (p : ptr) : M unit :=
  let* g := load p in
  if mu g then panic Deadlock
  else match p with
       | Some l => setMu l true
       | None => panic NilDereference
       end.

(** [p.mu.Unlock()]. *)
Definition Unlock (p : ptr) : M unit :=
  let* _ := load p in
  match p with
  | Some l => setMu l false
  | None => panic NilDereference
  end.

(** [initOnce.Do(f)]: [f] runs when the flag is down, and the flag goes up
    when [f] is over, also when [f] aborted. *)
Definition Once_Do (f : M unit) : M unit :=
  fun w =>
    if initOnce w then Ret tt w
    else match f w with
         | Ret _ w' => setInitOnce true w'
         | Stuck why w' => Stuck why (world_of (setInitOnce true w'))
         end.

(** *** Calls that leave the package *)

Definition log_ (lvl : Level) (msg : string) (ctx : list (string * string)) : M unit :=
  emit (EvLog lvl msg ctx).

(** [p.filter.CheckAddress(query)] on the store behind [filter]. *)
Definition filter_CheckAddress (f : option BloomFilterStore) (query : string)
  : M (bool * option error) :=
  match f with
  | None => panic NilDereference
  | Some st => let* _ := emit (EvCheckAddress query) in ret (store_CheckAddress st query)
  end.

Definition logFilteredEntry (entry : filteredTxLog) : M (option error) :=
  let* _ := emit (EvFilteredEntry entry) in ret (writeFilteredEntry entry).

Definition call_NewBloomFilterStoreFromFile (path : string)
  : M (option BloomFilterStore * option error) :=
  let* _ := emit (EvLoadFilter path) in ret (NewBloomFilterStoreFromFile path).

Definition call_NewFileWatcherNotifier (path : string) (seconds : nat)
  : M (option FileWatcherNotifier * option error) :=
  let* _ := emit (EvWatchFile path seconds) in ret (NewFileWatcherNotifier path seconds).

Definition call_manager_Start (m : ReloadManager) : M (option error) :=
  let* _ := emit (EvManagerStart m) in ret (manager_Start m).

Definition call_manager_Stop (m : ReloadManager) : M (option error) :=
  let* _ := emit (EvManagerStop m) in ret (manager_Stop m).

Definition ToLower (s : string) : string := strings.ToLower unicode_MapToLower s.

(** [err != nil]. *)
Definition notNil {A : Type} (x : option A) : bool :=
  match x with
  | Some _ => true
  | None => false
  end.

(** *** [getDefaultPath] *)

Definition getDefaultPath : string * option error :=
  let (homeDir, err) := user_Current in
  match err with
  | Some e => ("", Some e)
  | None =>
    if GOOS =? "linux" then (filepath_Join homeDir linuxPath, None)
    else if GOOS =? "darwin" then (filepath_Join homeDir darwinPath, None)
    else ("", Some "unsupported OS for guardian")
  end.

(** *** [newGuardian] *)

(** The first block of [newGuardian]: the path the snapshot is read from, or
    the error of [getDefaultPath]. *)
Definition filterFilePath (config : Config) : string + error :=
  if FilterFilePath config =? "" then
    let (path, err) := getDefaultPath in
    match err with
    | Some e => inr e
    | None => inl (filepath_Join path bloomFilterFilename)
    end
  else inl (FilterFilePath config).

Definition newGuardian (config : Config) : M (ptr * option error) :=
  match filterFilePath config with
  | inr e => ret (None, Some e)
  | inl path =>
    let* (filter, err) := call_NewBloomFilterStoreFromFile path in
    match err with
    | Some e => ret (None, Some e)
    | None =>
      let* (notifier, err) := call_NewFileWatcherNotifier path 10 in
      match err with
      | Some e => ret (None, Some e)
      | None =>
        let manager := NewReloadManager filter notifier in
        let* err := call_manager_Start manager in
        match err with
        | Some e => ret (None, Some e)
        | None =>
          let* _ := log_ LvlInfo "Guardian initialized" [("file", path)] in
          let* g := alloc {| filter := filter; manager := Some manager; mu := false |} in
          ret (g, None)
        end
      end
    end
  end.

(** *** [InitInstance] and [GetInstance] *)

Definition InitInstance (config : Config) : M unit :=
  Once_Do (
    if Disabled config then log_ LvlWarn "Guardian is disabled" []
    else
      let* (g, err) := newGuardian config in
      let* _ := setInstanceVar g in
      match err with
      | Some e => log_ LvlError "Failed to initialize Guardian" [("error", e)]
      | None => ret tt
      end).

Definition GetInstance : M (ptr * option error) :=
  let* inst := getInstanceVar in
  match inst with
  | None => ret (None, Some "guardian is not initialized")
  | Some _ => ret (inst, None)
  end.

(** *** [checkAddress] and [CheckTransaction] *)

Definition checkAddress (p : ptr) (tx : Transaction) (from addr : string)
  : M (bool * option error) :=
  let* g := load p in
  let* (ok, err) := filter_CheckAddress (filter g) (ToLower addr) in
  match err with
  | Some e => ret (false, Some e)
  | None =>
    if ok then
      let* err := logFilteredEntry
                    {| filteredAddress := addr; from := from; transaction := tx |} in
      let* _ := match err with
                | Some e => log_ LvlError "Failed to log filtered transaction" [("err", e)]
                | None => ret tt
                end in
      let* _ := log_ LvlWarn "Filtered address found in transaction"
                     [("tx", Transaction_HashHex tx); ("address", addr)] in
      ret (true, None)
    else ret (false, None)
  end.

Definition CheckTransaction (p : ptr) (signer : Signer) (tx : Transaction) : M bool :=
  let (from, err) := types_Sender signer tx in
  match err with
  | Some e =>
    let* _ := log_ LvlError "Failed to extract 'from' address" [("err", e)] in
    ret false
  | None =>
    let* (filtered, err) := checkAddress p tx (Address_Hex from) (Address_Hex from) in
    if notNil err || filtered then
      let* _ := match err with
                | Some e => log_ LvlError "Error checking sender address" [("err", e)]
                | None => ret tt
                end in
      ret filtered
    else
      match Transaction_To tx with
      | Some to =>
        let* (filtered, err) := checkAddress p tx (Address_Hex from) (Address_Hex to) in
        if notNil err || filtered then
          let* _ := match err with
                    | Some e => log_ LvlError "Error checking recipient address" [("err", e)]
                    | None => ret tt
                    end in
          ret filtered
        else ret false
      | None => ret false
      end
  end.

(** *** [Stop] and [Reset] *)

Definition Stop (p : ptr) : M unit :=
  let* _ := Lock p in
  let* g := load p in
  let* _ := match manager g with
            | Some m => let* _ := call_manager_Stop m in ret tt
            | None => ret tt
            end in
  Unlock p.

Definition Reset (p : ptr) : M unit :=
  let* inst := getInstanceVar in
  let* _ := match inst with
            | Some _ => Stop inst
            | None => ret tt
            end in
  let* _ := Lock p in
  let* _ := setInstanceVar None in
  let* _ := setInitOnce false in
  Unlock p.

(** *** Runs of the package's interface *)

Inductive Call : Type :=
| CallInitInstance (config : Config)
| CallGetInstance
| CallCheckTransaction (p : ptr) (signer : Signer) (tx : Transaction)
| CallStop (p : ptr)
| CallReset (p : ptr).

Definition perform (c : Call) : M unit :=
  match c with
  | CallInitInstance config => InitInstance config
  | CallGetInstance => let* _ := GetInstance in ret tt
  | CallCheckTransaction p signer tx => let* _ := CheckTransaction p signer tx in ret tt
  | CallStop p => Stop p
  | CallReset p => Reset p
  end.

Fixpoint performAll (cs : list Call) : M unit :=
  match cs with
  | [] => ret tt
  | c :: cs' => let* _ := perform c in performAll cs'
  end.

(** [InitInstance(config)] in [w] is a successful initialization: the body of
    the [Once] runs, the config is enabled and [newGuardian] returns no error. *)
Definition initializes (config : Config) (w : World) : bool :=
  negb (initOnce w) && negb (Disabled config) &&
  match newGuardian config w with
  | Ret (_, None) _ => true
  | _ => false
  end.

(** Some call of the run [cs] from [w] is a successful initialization. *)
Fixpoint initializesIn (cs : list Call) (w : World) : bool :=
  match cs with
  | [] => false
  | c :: cs' =>
    match c with
    | CallInitInstance config => initializes config w
    | _ => false
    end
    || match perform c w with
       | Ret _ w' => initializesIn cs' w'
       | Stuck _ _ => false
       end
  end.

Definition isReset (c : Call) : bool :=
  match c with
  | CallReset _ => true
  | _ => false
  end.

(** Between calls no mutex is held and [instance] points into the heap. *)
Definition quiescent (w : World) : Prop :=
  Forall (fun g => mu g = false) (heap w) /\
  (forall l, instance w = Some l -> l < length (heap w)).

(** The worlds a process can be in between calls. *)
Inductive reachable : World -> Prop :=
| reachable_start : reachable startWorld
| reachable_call (w w' : World) (c : Call) :
    reachable w -> perform c w = Ret tt w' -> reachable w'.

(** The [manager.Stop()] that [Stop] makes on the current instance. *)
Definition stopEvents (w : World) : list Event :=
  match instance w with
  | Some l =>
    match heap w !! l with
    | Some g =>
      match manager g with
      | Some m => [EvManagerStop m]
      | None => []
      end
    | None => []
    end
  | None => []
  end.

(** *** Reading a trace *)

(** The strings the membership store was asked about, in order. *)
Fixpoint queries (evs : list Event) : list string :=
  match evs with
  | [] => []
  | EvCheckAddress q :: evs' => q :: queries evs'
  | _ :: evs' => queries evs'
  end.

(** The entries handed to [logFilteredEntry], in order. *)
Fixpoint entries (evs : list Event) : list filteredTxLog :=
  match evs with
  | [] => []
  | EvFilteredEntry e :: evs' => e :: entries evs'
  | _ :: evs' => entries evs'
  end.

(** The package variables and the heap are the same in both worlds. *)
Definition sameState (w w' : World) : Prop :=
  instance w' = instance w /\ initOnce w' = initOnce w /\ heap w' = heap w.

(** [p] points to a [Guardian] whose filter is the store [st]. *)
Definition guards (w : World) (p : ptr) (st : BloomFilterStore) : Prop :=
  exists l g, p = Some l /\ heap w !! l = Some g /\ filter g = Some st.

(** A hit: the lookup reports membership and no error. *)
Definition hit (st : BloomFilterStore) (addr : string) : Prop :=
  store_CheckAddress st (ToLower addr) = (true, None).

(** A clean miss: the lookup reports no membership and no error. *)
Definition miss (st : BloomFilterStore) (addr : string) : Prop :=
  store_CheckAddress st (ToLower addr) = (false, None).

(** A store-level failure of the lookup. *)
Definition lookupFails (st : BloomFilterStore) (addr : string) : Prop :=
  exists ok e, store_CheckAddress st (ToLower addr) = (ok, Some e).

(** *** Vocabulary of the properties *)

(** The events of a hit on [addr]: the lookup, the audit entry, the report of
    a failed write if there is one, and the warning. *)
Definition hitEvents (tx : Transaction) (from addr : string) : list Event :=
  [EvCheckAddress (ToLower addr);
   EvFilteredEntry {| filteredAddress := addr; from := from; transaction := tx |}]
  ++ match writeFilteredEntry {| filteredAddress := addr; from := from; transaction := tx |} with
     | Some e => [EvLog LvlError "Failed to log filtered transaction" [("err", e)]]
     | None => []
     end
  ++ [EvLog LvlWarn "Filtered address found in transaction"
            [("tx", Transaction_HashHex tx); ("address", addr)]].

(** The verdict [checkAddress] hands back for [addr] taken alone: the
    [filtered] flag [CheckTransaction] would read. *)
Definition verdictFor (st : BloomFilterStore) (addr : string) : bool :=
  match store_CheckAddress st (ToLower addr) with
  | (ok, None) => ok
  | (_, Some _) => false
  end.

(** The specification's account of a failed lookup on the sender: the
    recipient is tested all the same and its verdict is what
    [CheckTransaction] returns. *)
Definition senderFailureFallsThrough : Prop :=
  forall (w : World) (p : ptr) (st : BloomFilterStore) (signer : Signer) (tx : Transaction)
         (sender to : Address),
    guards w p st ->
    types_Sender signer tx = (sender, None) ->
    Transaction_To tx = Some to ->
    lookupFails st (Address_Hex sender) ->
    exists evs,
      CheckTransaction p signer tx w = Ret (verdictFor st (Address_Hex to)) (addTrace w evs) /\
      ToLower (Address_Hex to) ∈ queries evs.

(** What a call hands back, without the world: [None] when it aborts. *)
Definition returned {A : Type} (o : Outcome A) : option A :=
  match o with
  | Ret a _ => Some a
  | Stuck _ _ => None
  end.

(** The events of screening: logging, lookups and audit entries; the others
    construct, start or stop something. *)
Definition observes (e : Event) : bool :=
  match e with
  | EvLog _ _ _ | EvCheckAddress _ | EvFilteredEntry _ => true
  | _ => false
  end.

(** The world once [newGuardian] has installed the struct [g]. *)
Definition constructed (w : World) (g : Guardian) (evs : list Event) : World :=
  {| instance := instance w; initOnce := initOnce w;
     heap := heap w ++ [g]; trace := trace w ++ evs |}.

(** The [manager.Stop()] that [Stop] makes on [g]. *)
Definition managerStop (g : Guardian) : list Event :=
  match manager g with
  | Some m => [EvManagerStop m]
  | None => []
  end.

(** The values a [*Guardian] can have in [w]: nil, or the address of a
    [Guardian] of the heap. *)
Definition pointer (w : World) (p : ptr) : Prop :=
  match p with
  | Some l => is_Some (heap w !! l)
  | None => True
  end.

(** The specification's account of [Reset]: whatever pointer it is called
    through, it returns, with both package variables cleared. *)
Definition ResetAlwaysReturns : Prop :=
  forall (w : World) (p : ptr),
    reachable w -> pointer w p ->
    exists w1, Reset p w = Ret tt w1 /\ instance w1 = None /\ initOnce w1 = false.

(** The specification's account of a disabled config: in whatever state of
    the process [InitInstance] is called with one, nothing is constructed
    and [GetInstance] returns its error from then on, as long as no
    initialization succeeds in between. *)
Definition DisabledLeavesNoInstance : Prop :=
  forall (w : World) (config : Config),
    reachable w ->
    Disabled config = true ->
    exists w1,
      InitInstance config w = Ret tt w1 /\
      heap w1 = heap w /\
      forall cs w2,
        performAll cs w1 = Ret tt w2 ->
        initializesIn cs w1 = false ->
        GetInstance w2 = Ret (None, Some "guardian is not initialized") w2.

(** *** Vocabulary of the further properties *)

(** The calls of a [newGuardian] that goes through, on the snapshot at [path]
    with the store [st] and the notifier [nt]. *)
Definition constructionEvents (path : string) (st : option BloomFilterStore)
           (nt : option FileWatcherNotifier) : list Event :=
  [EvLoadFilter path; EvWatchFile path 10; EvManagerStart (NewReloadManager st nt);
   EvLog LvlInfo "Guardian initialized" [("file", path)]].

(** The [Guardian] such a [newGuardian] allocates. *)
Definition constructedGuardian (st : option BloomFilterStore)
           (nt : option FileWatcherNotifier) : Guardian :=
  {| filter := st; manager := Some (NewReloadManager st nt); mu := false |}.

(** The singleton as the package's own calls leave it: an installed instance
    comes with a spent guard and is a [Guardian] of the heap that has a
    manager and a free mutex. *)
Definition installedWell (w : World) : Prop :=
  forall l, instance w = Some l ->
            initOnce w = true /\
            exists g, heap w !! l = Some g /\ is_Some (manager g) /\ mu g = false.

(** Two worlds that look alike from [p]: the same [Guardian] behind [p] (or
    none in both), the same lookups made and the same audit entries written
    so far. *)
Definition alike (p : ptr) (w w' : World) : Prop :=
  returned (load p w) = returned (load p w') /\
  queries (trace w) = queries (trace w') /\
  entries (trace w) = entries (trace w').

(** The number of snapshot loads in a trace, one for each run of
    [newGuardian] that got as far as its path. *)
Fixpoint loads (evs : list Event) : nat :=
  match evs with
  | [] => 0
  | EvLoadFilter _ :: evs' => S (loads evs')
  | _ :: evs' => loads evs'
  end.

End Functions.

(** * A small instance

    One store with a listed address and an address whose lookup fails, three
    accounts, and a linux host on which the snapshot file exists. *)

Module Demo.

Record Tx : Type := {
  txSender : option string;
  txTo : option string;
  txHash : string
}.

#[export] Instance demoGeth : GoEthereum := {|
  Address := string;
  Signer := unit;
  Transaction := Tx;
  Address_Hex := fun a => a;
  Transaction_To := txTo;
  Transaction_HashHex := txHash;
  types_Sender := fun _ tx =>
    match txSender tx with
    | Some a => (a, None)
    | None => ("0x0000000000000000000000000000000000000000", Some "invalid signature")
    end
|}.

#[export] Instance demoLogger : FilteredEntryLogger := {|
  writeFilteredEntry := fun _ => None
|}.

Record Store : Type := {
  listed : list string;
  unreadable : list string
}.

Definition demoCheck (st : Store) (q : string) : bool * option error :=
  if existsb (String.eqb q) (unreadable st) then (false, Some "store unavailable")
  else (existsb (String.eqb q) (listed st), None).

Definition blocked : string := "0xf39Fd6e51aad88F6F4ce6aB8827279cffFb92266".
Definition clean : string := "0x810205E412eB4b9f8A7faEF8faE4cF08D7c680e1".
Definition cursed : string := "0x97DCA899a2278d010d678d64fBC7C718eD5D4939".

Definition demoStore : Store :=
  {| listed := ["0xf39fd6e51aad88f6f4ce6ab8827279cfffb92266"];
     unreadable := ["0x97dca899a2278d010d678d64fbc7c718ed5d4939"] |}.

Definition snapshot : string := "/home/geth/geth/guardian/bloom_filter.gob".

#[export] Instance demoDB : AddressDB := {|
  BloomFilterStore := Store;
  FileWatcherNotifier := string;
  ReloadManager := string;
  store_CheckAddress := demoCheck;
  NewBloomFilterStoreFromFile := fun path =>
    if path =? snapshot then (Some demoStore, None)
    else (None, Some "open: no such file or directory");
  NewFileWatcherNotifier := fun path _ => (Some path, None);
  NewReloadManager := fun _ notifier =>
    match notifier with
    | Some path => path
    | None => ""
    end;
  manager_Start := fun _ => None;
  manager_Stop := fun _ => None
|}.

Definition demoJoin (a b : string) : string := a ++ "/" ++ b.

Definition linux : Runtime := {|
  GOOS := "linux";
  user_Current := ("/home/geth", None);
  filepath_Join := demoJoin;
  unicode_MapToLower := fun s => s
|}.

Definition windows : Runtime := {|
  GOOS := "windows";
  user_Current := ("C:/Users/geth", None);
  filepath_Join := demoJoin;
  unicode_MapToLower := fun s => s
|}.

#[local] Existing Instance linux.

Definition theGuardian : Guardian :=
  {| filter := Some demoStore; manager := Some snapshot; mu := false |}.

(** The world after [InitInstance(Config{})] in a new process. *)
Definition running : World :=
  {| instance := Some 0;
     initOnce := true;
     heap := [theGuardian];
     trace := [EvLoadFilter snapshot; EvWatchFile snapshot 10; EvManagerStart snapshot;
               EvLog LvlInfo "Guardian initialized" [("file", snapshot)]] |}.

(** A process in which no instance was created, and a [Guardian] made by hand. *)
Definition idle : World :=
  {| instance := None; initOnce := false;
     heap := [{| filter := None; manager := None; mu := false |}]; trace := [] |}.

Definition enabled : Config := {| FilterFilePath := ""; Disabled := false |}.
Definition disabled : Config := {| FilterFilePath := ""; Disabled := true |}.
Definition missing : Config := {| FilterFilePath := "/nowhere.gob"; Disabled := false |}.

Definition txFrom (sender : option string) (to : option string) : Tx :=
  {| txSender := sender; txTo := to; txHash := "0xabcd" |}.

Definition explicit : Config := {| FilterFilePath := snapshot; Disabled := false |}.

Definition transfer : Tx := txFrom (Some clean) (Some blocked).

(** The running process after [Stop], [Reset] and a new [InitInstance]. *)
Definition restarted : World :=
  world_of (performAll [CallStop (Some 0); CallReset (Some 0); CallInitInstance enabled]
                       running).

(** The running process after [Stop] and [Reset]. *)
Definition wound_down : World :=
  world_of (performAll [CallStop (Some 0); CallReset (Some 0)] running).

(** A new process after a failed, then a valid [InitInstance]. *)
Definition failed_first : World :=
  world_of (performAll [CallInitInstance missing; CallInitInstance enabled; CallGetInstance]
                       startWorld).

End Demo.

(** * Properties *)

Section Properties.

Context {geth : GoEthereum} {logger : FilteredEntryLogger} {adb : AddressDB} {rt : Runtime}.

Lemma addTrace_nil (w : World) : addTrace w [] = w.
Proof. destruct w; unfold addTrace; simpl. by rewrite app_nil_r. Qed.

Lemma addTrace_app (w : World) (a b : list Event) :
  addTrace (addTrace w a) b = addTrace w (a ++ b).
Proof. unfold addTrace; simpl. by rewrite app_assoc. Qed.

(** Runs the package's sequencing on a world that is known. *)
Ltac go_steps :=
  repeat (progress (unfold bind, log_, emit, ret; simpl)); rewrite ?addTrace_app; simpl.

Lemma sameState_addTrace (w : World) (evs : list Event) : sameState w (addTrace w evs).
Proof. by unfold sameState. Qed.

Lemma queries_app (a b : list Event) : queries (a ++ b) = queries a ++ queries b.
Proof.
  induction a as [|e a IH]; simpl; [done|].
  destruct e; simpl; by rewrite ?IH.
Qed.

Lemma entries_app (a b : list Event) : entries (a ++ b) = entries a ++ entries b.
Proof.
  induction a as [|e a IH]; simpl; [done|].
  destruct e; simpl; by rewrite ?IH.
Qed.

Lemma checkAddress_run (w : World) (p : ptr) (st : BloomFilterStore)
      (tx : Transaction) (from addr : string) :
  guards w p st ->
  checkAddress p tx from addr w =
  match store_CheckAddress st (ToLower addr) with
  | (_, Some e) => Ret (false, Some e) (addTrace w [EvCheckAddress (ToLower addr)])
  | (true, None) => Ret (true, None) (addTrace w (hitEvents tx from addr))
  | (false, None) => Ret (false, None) (addTrace w [EvCheckAddress (ToLower addr)])
  end.
Proof.
  intros (l & g & -> & Hl & Hf).
  unfold checkAddress, bind, load. rewrite Hl, Hf. simpl.
  unfold bind, emit, ret.
  destruct (store_CheckAddress st (ToLower addr)) as [[|] [e|]]; try done.
  unfold logFilteredEntry, hitEvents, bind, emit, ret, log_.
  destruct (writeFilteredEntry _); unfold emit; by rewrite !addTrace_app.
Qed.

Lemma guards_addTrace (w : World) (p : ptr) (st : BloomFilterStore) (evs : list Event) :
  guards w p st -> guards (addTrace w evs) p st.
Proof. by intros (l & g & ? & ? & ?); exists l, g. Qed.

(** ** [CheckTransaction] *)

(** What [checkAddress] does to the world, whatever the receiver: it only
    adds screening events to the trace. *)
Lemma checkAddress_world (w : World) (p : ptr) (tx : Transaction) (from addr : string) :
  exists evs, world_of (checkAddress p tx from addr w) = addTrace w evs /\
              forallb observes evs = true.
Proof.
  unfold checkAddress, bind, load.
  destruct p as [l|]; [|by exists []; rewrite addTrace_nil].
  destruct (heap w !! l) as [g|]; [|by exists []; rewrite addTrace_nil].
  destruct (filter g) as [st|]; simpl; [|by exists []; rewrite addTrace_nil].
  unfold bind, emit, ret.
  destruct (store_CheckAddress st (ToLower addr)) as [[|] [e|]]; simpl;
    try (by eexists; split; [reflexivity|]).
  unfold logFilteredEntry, bind, emit, ret, log_, emit.
  destruct (writeFilteredEntry _); simpl; rewrite !addTrace_app;
    by eexists; split; [reflexivity|].
Qed.

Lemma checkAddress_cases (w : World) (p : ptr) (tx : Transaction) (from addr : string) :
  exists evs,
    forallb observes evs = true /\
    ((exists r, checkAddress p tx from addr w = Ret r (addTrace w evs)) \/
     (exists why, checkAddress p tx from addr w = Stuck why (addTrace w evs))).
Proof.
  destruct (checkAddress_world w p tx from addr) as (evs & Hevs & Hobs).
  exists evs. split; [done|].
  destruct (checkAddress p tx from addr w) as [r w'|why w']; simpl in Hevs; subst; eauto.
Qed.

Lemma CheckTransaction_world (w : World) (p : ptr) (signer : Signer) (tx : Transaction) :
  exists evs, world_of (CheckTransaction p signer tx w) = addTrace w evs /\
              forallb observes evs = true.
Proof.
  unfold CheckTransaction.
  destruct (types_Sender signer tx) as [sender [e|]]; [by eexists; split; [reflexivity|]|].
  unfold bind at 1.
  destruct (checkAddress_cases w p tx (Address_Hex sender) (Address_Hex sender))
    as (evs & Hobs & [[[filtered err] ->]|[why ->]]); [|by exists evs].
  destruct err as [e|]; simpl.
  { rewrite addTrace_app. eexists. split; [reflexivity|].
    rewrite forallb_app, Hobs. done. }
  destruct filtered; simpl; [by exists evs|].
  destruct (Transaction_To tx) as [to|]; [|by exists evs].
  unfold bind at 1.
  destruct (checkAddress_cases (addTrace w evs) p tx (Address_Hex sender) (Address_Hex to))
    as (evs' & Hobs' & [[[filtered err] ->]|[why ->]]).
  2:{ rewrite addTrace_app. eexists. split; [reflexivity|]. by rewrite forallb_app, Hobs, Hobs'. }
  destruct err as [e|]; simpl.
  { rewrite !addTrace_app. eexists. split; [reflexivity|].
    by rewrite !forallb_app, Hobs, Hobs'. }
  destruct filtered; simpl; rewrite addTrace_app;
    (eexists; split; [reflexivity|]; by rewrite forallb_app, Hobs, Hobs').
Qed.

(** C10. [CheckTransaction] never writes to the [Guardian] it is called on, to
    any other [Guardian], to [instance] or to [initOnce]: whether it returns
    or aborts, the world it leaves is the world it found with more events in
    the trace, and those events are log lines, membership lookups and audit
    entries only. *)
Theorem CheckTransaction_frame (w : World) (p : ptr) (signer : Signer) (tx : Transaction) :
  sameState w (world_of (CheckTransaction p signer tx w)) /\
  (forall g, load p w = Ret g w ->
             load p (world_of (CheckTransaction p signer tx w))
             = Ret g (world_of (CheckTransaction p signer tx w))) /\
  exists evs,
    trace (world_of (CheckTransaction p signer tx w)) = trace w ++ evs /\
    forallb observes evs = true.
Proof.
  destruct (CheckTransaction_world w p signer tx) as (evs & -> & Hobs).
  split; [apply sameState_addTrace|]. split; [|by exists evs].
  intros g. unfold load. simpl. destruct p as [l|]; [|done].
  destruct (heap w !! l); [|done]. by intros [= ->].
Qed.

(** C3. When [types.Sender] fails, [CheckTransaction] returns [false]: it logs
    the failure and does nothing else, so no membership test is made, no
    entry is written and nothing aborts, on any receiver (a nil one too). *)
Theorem CheckTransaction_sender_recovery_fails
        (w : World) (p : ptr) (signer : Signer) (tx : Transaction) (a : Address) (e : error) :
  types_Sender signer tx = (a, Some e) ->
  exists evs,
    CheckTransaction p signer tx w = Ret false (addTrace w evs) /\
    evs = [EvLog LvlError "Failed to extract 'from' address" [("err", e)]] /\
    queries evs = [] /\ entries evs = [].
Proof.
  intros Hs. unfold CheckTransaction. rewrite Hs.
  eexists. split; [reflexivity|]. by repeat split.
Qed.

(** The run of [CheckTransaction] on a usable receiver once the sender is
    known, by the outcome of the sender's lookup. *)
Lemma CheckTransaction_sender_step
      (w : World) (p : ptr) (st : BloomFilterStore) (signer : Signer) (tx : Transaction)
      (sender : Address) :
  guards w p st ->
  types_Sender signer tx = (sender, None) ->
  CheckTransaction p signer tx w =
  match store_CheckAddress st (ToLower (Address_Hex sender)) with
  | (_, Some e) =>
    Ret false (addTrace w [EvCheckAddress (ToLower (Address_Hex sender));
                           EvLog LvlError "Error checking sender address" [("err", e)]])
  | (true, None) =>
    Ret true (addTrace w (hitEvents tx (Address_Hex sender) (Address_Hex sender)))
  | (false, None) =>
    match Transaction_To tx with
    | None => Ret false (addTrace w [EvCheckAddress (ToLower (Address_Hex sender))])
    | Some to =>
      match store_CheckAddress st (ToLower (Address_Hex to)) with
      | (_, Some e) =>
        Ret false (addTrace w [EvCheckAddress (ToLower (Address_Hex sender));
                               EvCheckAddress (ToLower (Address_Hex to));
                               EvLog LvlError "Error checking recipient address" [("err", e)]])
      | (true, None) =>
        Ret true (addTrace w (EvCheckAddress (ToLower (Address_Hex sender))
                              :: hitEvents tx (Address_Hex sender) (Address_Hex to)))
      | (false, None) =>
        Ret false (addTrace w [EvCheckAddress (ToLower (Address_Hex sender));
                               EvCheckAddress (ToLower (Address_Hex to))])
      end
    end
  end.
Proof.
  intros Hg Hs. unfold CheckTransaction. rewrite Hs.
  unfold bind at 1. rewrite (checkAddress_run w p st) by done.
  destruct (store_CheckAddress st (ToLower (Address_Hex sender))) as [[|] [e|]];
    simpl; try (by go_steps).
  destruct (Transaction_To tx) as [to|]; [|done].
  unfold bind at 1.
  rewrite (checkAddress_run _ p st) by by apply guards_addTrace.
  destruct (store_CheckAddress st (ToLower (Address_Hex to))) as [[|] [e|]];
    simpl; by go_steps.
Qed.

(** C1, amended.  For a transaction with a recovered sender and a recipient,
    a store-level failure of the sender's lookup ends the check: the error
    is logged, the sender counts as not filtered, [false] is returned, and
    the recipient is not tested. *)
Theorem CheckTransaction_sender_lookup_fails
        (w : World) (p : ptr) (st : BloomFilterStore) (signer : Signer) (tx : Transaction)
        (sender to : Address) :
  guards w p st ->
  types_Sender signer tx = (sender, None) ->
  Transaction_To tx = Some to ->
  lookupFails st (Address_Hex sender) ->
  exists e evs,
    CheckTransaction p signer tx w = Ret false (addTrace w evs) /\
    evs = [EvCheckAddress (ToLower (Address_Hex sender));
           EvLog LvlError "Error checking sender address" [("err", e)]] /\
    queries evs = [ToLower (Address_Hex sender)] /\
    entries evs = [].
Proof.
  intros Hg Hs _ (ok & e & Hf).
  rewrite (CheckTransaction_sender_step w p st signer tx sender) by done.
  rewrite Hf. exists e. eexists. split; [by destruct ok|]. by repeat split.
Qed.

(** C2. With the sender recovered, on a usable receiver: the sender's lookup
    is the first membership test and the recipient's, when there is one, the
    second and last.  A hit on the sender returns [true] after that single
    test, with one audit entry naming the sender as filtered address and as
    counterpart.  When the sender is a clean miss and the recipient a hit,
    the result is [true] with one audit entry naming the recipient as
    filtered address and the sender as counterpart. *)
Theorem CheckTransaction_order_and_short_circuit
        (w : World) (p : ptr) (st : BloomFilterStore) (signer : Signer) (tx : Transaction)
        (sender : Address) :
  guards w p st ->
  types_Sender signer tx = (sender, None) ->
  exists b evs,
    CheckTransaction p signer tx w = Ret b (addTrace w evs) /\
    (queries evs = [ToLower (Address_Hex sender)] \/
     exists to, Transaction_To tx = Some to /\
                queries evs = [ToLower (Address_Hex sender); ToLower (Address_Hex to)]) /\
    (hit st (Address_Hex sender) ->
     b = true /\
     queries evs = [ToLower (Address_Hex sender)] /\
     entries evs = [{| filteredAddress := Address_Hex sender;
                       from := Address_Hex sender;
                       transaction := tx |}]) /\
    (forall to,
        miss st (Address_Hex sender) ->
        Transaction_To tx = Some to ->
        hit st (Address_Hex to) ->
        b = true /\
        queries evs = [ToLower (Address_Hex sender); ToLower (Address_Hex to)] /\
        entries evs = [{| filteredAddress := Address_Hex to;
                          from := Address_Hex sender;
                          transaction := tx |}]).
Proof.
  intros Hg Hs.
  rewrite (CheckTransaction_sender_step w p st signer tx sender) by done.
  unfold hit, miss, hitEvents.
  destruct (store_CheckAddress st (ToLower (Address_Hex sender))) as [[|] [e|]] eqn:Hfrom.
  - do 2 eexists. split; [done|]. split; [by left|]. by split; [|intros to ?].
  - do 2 eexists. split; [done|]. split.
    + left. simpl. rewrite queries_app. by destruct (writeFilteredEntry _).
    + split; [|by intros to ?]. intros _. simpl.
      rewrite queries_app, entries_app. by destruct (writeFilteredEntry _).
  - do 2 eexists. split; [done|]. split; [by left|]. by split; [|intros to ?].
  - destruct (Transaction_To tx) as [to|] eqn:Hto.
    + destruct (store_CheckAddress st (ToLower (Address_Hex to))) as [[|] [e|]] eqn:Hrcpt.
      * do 2 eexists. split; [done|]. split; [right; by exists to|].
        split; [done|]. intros to' _ [= <-]. by rewrite Hrcpt.
      * do 2 eexists. split; [done|]. split.
        -- right. exists to. split; [done|]. simpl. rewrite queries_app.
           by destruct (writeFilteredEntry _).
        -- split; [done|]. intros to' _ [= <-] _. simpl.
           rewrite queries_app, entries_app. by destruct (writeFilteredEntry _).
      * do 2 eexists. split; [done|]. split; [right; by exists to|].
        split; [done|]. intros to' _ [= <-]. by rewrite Hrcpt.
      * do 2 eexists. split; [done|]. split; [right; by exists to|].
        split; [done|]. intros to' _ [= <-]. by rewrite Hrcpt.
    + do 2 eexists. split; [done|]. split; [by left|]. by split; [|intros to ?].
Qed.

(** C5. With the sender recovered and not a hit, on a usable receiver: a
    contract creation ([tx.To()] is nil) is answered [false] after the
    sender's test alone; and whenever the recipient, if present, is not a hit
    either, the answer is [false] and no audit entry is written. *)
Theorem CheckTransaction_no_hit
        (w : World) (p : ptr) (st : BloomFilterStore) (signer : Signer) (tx : Transaction)
        (sender : Address) :
  guards w p st ->
  types_Sender signer tx = (sender, None) ->
  ~ hit st (Address_Hex sender) ->
  (Transaction_To tx = None ->
   exists evs, CheckTransaction p signer tx w = Ret false (addTrace w evs) /\
               queries evs = [ToLower (Address_Hex sender)] /\ entries evs = []) /\
  ((forall to, Transaction_To tx = Some to -> ~ hit st (Address_Hex to)) ->
   exists evs, CheckTransaction p signer tx w = Ret false (addTrace w evs) /\
               entries evs = []).
Proof.
  intros Hg Hs Hnf.
  rewrite (CheckTransaction_sender_step w p st signer tx sender) by done.
  unfold hit in *.
  destruct (store_CheckAddress st (ToLower (Address_Hex sender))) as [[|] [e|]];
    try done; try (split; intros; by eexists).
  destruct (Transaction_To tx) as [to|].
  - split; [done|]. intros Hnt. specialize (Hnt to eq_refl).
    destruct (store_CheckAddress st (ToLower (Address_Hex to))) as [[|] [e|]];
      try done; by eexists.
  - split; intros; by eexists.
Qed.

(** ** [checkAddress] and letter case *)

Lemma lowerByte_idem (c : ascii) : strings.lowerByte (strings.lowerByte c) = strings.lowerByte c.
Proof. by destruct c as [[] [] [] [] [] [] [] []]. Qed.

Lemma lowerByte_low (c : ascii) :
  (nat_of_ascii (strings.lowerByte c) <? strings.RuneSelf)%nat = (nat_of_ascii c <? strings.RuneSelf)%nat.
Proof. by destruct c as [[] [] [] [] [] [] [] []]. Qed.

Lemma sameByteFold_lower (c d : ascii) :
  strings.sameByteFold c d -> strings.lowerByte c = strings.lowerByte d.
Proof.
  intros [->|[[_ ->]|[_ ->]]]; [done| |]; by rewrite lowerByte_idem.
Qed.

Lemma sameByteFold_low (c d : ascii) :
  strings.sameByteFold c d ->
  (nat_of_ascii c <? strings.RuneSelf)%nat = (nat_of_ascii d <? strings.RuneSelf)%nat.
Proof.
  intros [->|[[_ ->]|[_ ->]]]; [done| |]; by rewrite lowerByte_low.
Qed.

Lemma differOnlyInCase_isASCII (s t : string) :
  strings.differOnlyInCase s t -> strings.isASCII s = strings.isASCII t.
Proof.
  revert t. induction s as [|c s IH]; intros [|d t]; simpl; try done.
  intros [Hc Hs]. by rewrite (sameByteFold_low c d), (IH t).
Qed.

Lemma differOnlyInCase_lowerASCII (s t : string) :
  strings.differOnlyInCase s t -> strings.lowerASCII s = strings.lowerASCII t.
Proof.
  revert t. induction s as [|c s IH]; intros [|d t]; simpl; try done.
  intros [Hc Hs]. by rewrite (sameByteFold_lower c d), (IH t).
Qed.

(** ASCII strings that differ only in letter case have one lowercase form. *)
Lemma differOnlyInCase_ToLower (s t : string) :
  strings.isASCII s = true -> strings.differOnlyInCase s t -> ToLower s = ToLower t.
Proof.
  intros Ha Hd. unfold ToLower, strings.ToLower.
  rewrite <- (differOnlyInCase_isASCII s t), Ha by done.
  by apply differOnlyInCase_lowerASCII.
Qed.

Lemma checkAddress_returned_ToLower
      (w : World) (p : ptr) (tx : Transaction) (from from' addr addr' : string) :
  ToLower addr = ToLower addr' ->
  returned (checkAddress p tx from addr w) = returned (checkAddress p tx from' addr' w).
Proof.
  intros Heq. unfold checkAddress, bind, load.
  destruct p as [l|]; [|done].
  destruct (heap w !! l) as [g|]; [|done].
  destruct (filter g) as [st|]; simpl; [|done].
  rewrite <- Heq. unfold bind, emit, ret.
  destruct (store_CheckAddress st (ToLower addr)) as [[|] [e|]]; try done.
  unfold logFilteredEntry. go_steps. by do 2 destruct (writeFilteredEntry _).
Qed.

Lemma lowerByte_not_upper (c : ascii) : strings.isUpper (strings.lowerByte c) = false.
Proof. by destruct c as [[] [] [] [] [] [] [] []]. Qed.

Lemma sameByteFold_lowerByte (c : ascii) : strings.sameByteFold c (strings.lowerByte c).
Proof.
  unfold strings.sameByteFold. destruct (strings.isUpper c) eqn:Hu.
  - right. left. by split.
  - left. unfold strings.lowerByte. by rewrite Hu.
Qed.

Lemma lowerASCII_differOnlyInCase (s : string) :
  strings.differOnlyInCase s (strings.lowerASCII s).
Proof.
  induction s as [|c s IH]; simpl; [done|].
  split; [apply sameByteFold_lowerByte|exact IH].
Qed.

Lemma lowerASCII_hasUpper (s : string) : strings.hasUpper (strings.lowerASCII s) = false.
Proof.
  induction s as [|c s IH]; simpl; [done|].
  by rewrite lowerByte_not_upper, IH.
Qed.

(** The lowercase form of an ASCII string is that string with its letters
    lowered: it differs from it in letter case only and holds no upper-case
    letter. *)
Lemma ToLower_lowercase (s : string) :
  strings.isASCII s = true ->
  strings.differOnlyInCase s (ToLower s) /\
  strings.hasUpper (ToLower s) = false /\
  strings.isASCII (ToLower s) = true.
Proof.
  intros Ha. unfold ToLower, strings.ToLower. rewrite Ha.
  split; [apply lowerASCII_differOnlyInCase|]. split; [apply lowerASCII_hasUpper|].
  by rewrite <- (differOnlyInCase_isASCII s), Ha by apply lowerASCII_differOnlyInCase.
Qed.

(** C4. [checkAddress] makes one membership lookup, and asks it about the
    lowercase form of the address: for an ASCII address string, as the
    hexadecimal address strings are, the string handed to the store is the
    address with every upper-case letter lowered and nothing else changed
    (it differs from the address in letter case only and holds no upper-case
    letter).  So two address strings with the same lowercase form get the
    same answer (the same flag and the same error) in every world and on
    every receiver, and ASCII strings that differ only in the case of their
    letters have the same lowercase form and are looked up under the same
    string. *)
Theorem checkAddress_case_insensitive
        (w : World) (p : ptr) (tx : Transaction) (from addr addr' : string) :
  (forall st, guards w p st ->
     exists r evs, checkAddress p tx from addr w = Ret r (addTrace w evs) /\
                   queries evs = [ToLower addr] /\
                   r = (verdictFor st addr,
                        snd (store_CheckAddress st (ToLower addr)))) /\
  (strings.isASCII addr = true ->
   strings.differOnlyInCase addr (ToLower addr) /\
   strings.hasUpper (ToLower addr) = false /\
   strings.isASCII (ToLower addr) = true) /\
  (ToLower addr = ToLower addr' ->
   returned (checkAddress p tx from addr w) = returned (checkAddress p tx from addr' w)) /\
  (strings.isASCII addr = true ->
   strings.differOnlyInCase addr addr' ->
   ToLower addr = ToLower addr' /\
   (forall st, guards w p st ->
      exists r evs evs',
        checkAddress p tx from addr w = Ret r (addTrace w evs) /\
        checkAddress p tx from addr' w = Ret r (addTrace w evs') /\
        queries evs = [ToLower addr] /\ queries evs' = [ToLower addr]) /\
   returned (checkAddress p tx from addr w) = returned (checkAddress p tx from addr' w)).
Proof.
  assert (forall a st, guards w p st ->
            exists r evs, checkAddress p tx from a w = Ret r (addTrace w evs) /\
                          queries evs = [ToLower a] /\
                          r = (verdictFor st a, snd (store_CheckAddress st (ToLower a))))
    as Hone.
  { intros a st Hg. rewrite (checkAddress_run w p st) by done.
    unfold verdictFor, hitEvents.
    destruct (store_CheckAddress st (ToLower a)) as [[|] [e|]];
      do 2 eexists; (split; [done|]); split; try done.
    simpl. rewrite queries_app. by destruct (writeFilteredEntry _). }
  split; [by apply Hone|]. split; [by apply ToLower_lowercase|]. split.
  - by apply checkAddress_returned_ToLower.
  - intros Ha Hd. pose proof (differOnlyInCase_ToLower addr addr' Ha Hd) as Heq.
    split; [done|]. split; [|by apply checkAddress_returned_ToLower].
    intros st Hg.
    destruct (Hone addr st Hg) as (r & evs & Hrun & Hq & Hr).
    destruct (Hone addr' st Hg) as (r' & evs' & Hrun' & Hq' & Hr').
    assert (r' = r) as -> by (rewrite Hr, Hr'; unfold verdictFor; by rewrite Heq).
    exists r, evs, evs'. split; [done|]. split; [done|]. split; [done|].
    by rewrite Hq', Heq.
Qed.

(** ** The singleton and its one-shot guard *)

(** [newGuardian] either fails, with a nil pointer and nothing allocated, or
    allocates one unlocked [Guardian] at the end of the heap. *)
Lemma newGuardian_cases (config : Config) (w : World) :
  exists evs,
    (exists e, newGuardian config w = Ret (None, Some e) (addTrace w evs)) \/
    (exists g, newGuardian config w = Ret (Some (length (heap w)), None) (constructed w g evs) /\
               mu g = false).
Proof.
  unfold newGuardian.
  destruct (filterFilePath config) as [path|e].
  2:{ exists []. left. exists e. by rewrite addTrace_nil. }
  unfold call_NewBloomFilterStoreFromFile, call_NewFileWatcherNotifier, call_manager_Start.
  go_steps.
  destruct (NewBloomFilterStoreFromFile path) as [st [e|]]; [eexists; left; by exists e|].
  go_steps.
  destruct (NewFileWatcherNotifier path 10) as [nt [e|]]; [eexists; left; by exists e|].
  go_steps.
  destruct (manager_Start (NewReloadManager st nt)) as [e|]; [eexists; left; by exists e|].
  go_steps. unfold alloc. simpl. rewrite <- app_assoc. simpl.
  eexists. right. by eexists.
Qed.

Lemma InitInstance_spent (config : Config) (w : World) :
  initOnce w = true -> InitInstance config w = Ret tt w.
Proof. intros Hd. unfold InitInstance, Once_Do. by rewrite Hd. Qed.

Lemma GetInstance_nil (w : World) :
  instance w = None -> GetInstance w = Ret (None, Some "guardian is not initialized") w.
Proof. intros Hi. unfold GetInstance, bind, getInstanceVar. by rewrite Hi. Qed.

(** [InitInstance] with a fresh guard, by what the body of the [Once] does. *)
Lemma InitInstance_fresh (config : Config) (w : World) :
  initOnce w = false ->
  InitInstance config w =
  if Disabled config then
    Ret tt {| instance := instance w; initOnce := true; heap := heap w;
              trace := trace w ++ [EvLog LvlWarn "Guardian is disabled" []] |}
  else
    match newGuardian config w with
    | Ret (g, Some e) w' =>
      Ret tt {| instance := g; initOnce := true; heap := heap w';
                trace := trace w' ++ [EvLog LvlError "Failed to initialize Guardian"
                                             [("error", e)]] |}
    | Ret (g, None) w' =>
      Ret tt {| instance := g; initOnce := true; heap := heap w'; trace := trace w' |}
    | Stuck why w' =>
      Stuck why {| instance := instance w'; initOnce := true; heap := heap w';
                   trace := trace w' |}
    end.
Proof.
  intros Hd. unfold InitInstance, Once_Do. rewrite Hd.
  destruct (Disabled config); [done|].
  unfold bind at 1.
  destruct (newGuardian config w) as [[g [e|]] w'|why w']; done.
Qed.

(** ** [Stop] and [Reset] *)

Lemma Lock_run (w : World) (l : nat) (g : Guardian) :
  heap w !! l = Some g -> mu g = false ->
  Lock (Some l) w =
  Ret tt {| instance := instance w; initOnce := initOnce w;
            heap := <[l := {| filter := filter g; manager := manager g; mu := true |}]> (heap w);
            trace := trace w |}.
Proof.
  intros Hl Hm. unfold Lock, bind, load, setMu. rewrite Hl, Hm. by rewrite Hl.
Qed.

Lemma Unlock_Lock (w : World) (l : nat) (g g' : Guardian) (i : ptr) (once : bool)
      (evs : list Event) :
  heap w !! l = Some g -> mu g = false ->
  filter g' = filter g -> manager g' = manager g ->
  Unlock (Some l) {| instance := i; initOnce := once;
                     heap := <[l := g']> (heap w); trace := evs |} =
  Ret tt {| instance := i; initOnce := once; heap := heap w; trace := evs |}.
Proof.
  intros Hl Hm Hf Hg. unfold Unlock, bind, load, setMu. simpl.
  rewrite list_lookup_insert_eq by by eapply lookup_lt_Some.
  simpl. rewrite list_lookup_insert_eq by by eapply lookup_lt_Some.
  simpl. rewrite list_insert_insert_eq, list_insert_id; [done|].
  rewrite Hl, Hf, Hg. f_equal. destruct g; simpl in *; by subst.
Qed.

(** [Stop] on an unlocked [Guardian]: the manager, if any, is stopped, and the
    mutex is free again at the end. *)
Lemma Stop_run (w : World) (l : nat) (g : Guardian) :
  heap w !! l = Some g -> mu g = false ->
  Stop (Some l) w = Ret tt (addTrace w (managerStop g)).
Proof.
  intros Hl Hm. unfold Stop. unfold bind at 1. rewrite (Lock_run w l g) by done.
  unfold bind at 1. unfold load. simpl.
  rewrite list_lookup_insert_eq by by eapply lookup_lt_Some.
  unfold managerStop. simpl.
  destruct (manager g) as [m|] eqn:Hmg; unfold call_manager_Stop; go_steps; unfold addTrace; simpl.
  - by rewrite (Unlock_Lock w l g).
  - rewrite (Unlock_Lock w l g) by done. by rewrite app_nil_r.
Qed.

(** [Stop] leaves the package variables alone, however it ends. *)
Lemma Stop_vars (w : World) (p : ptr) :
  instance (world_of (Stop p w)) = instance w /\
  initOnce (world_of (Stop p w)) = initOnce w.
Proof.
  unfold Stop, Lock, Unlock, bind, load, setMu, call_manager_Stop, bind, emit, ret, panic.
  destruct p as [l|]; [|done].
  destruct (heap w !! l) as [g|] eqn:Hl; [|done].
  destruct (mu g); [done|]. rewrite Hl. simpl.
  rewrite list_lookup_insert_eq by by eapply lookup_lt_Some.
  simpl. destruct (manager g); simpl;
    rewrite list_lookup_insert_eq by (by eapply lookup_lt_Some); simpl;
    rewrite list_lookup_insert_eq by (by eapply lookup_lt_Some); done.
Qed.

(** [Reset] through a pointer to an unlocked [Guardian], in a quiescent world:
    the current instance is stopped, both package variables are cleared and
    every mutex is free again. *)
Lemma Reset_run (w : World) (l : nat) (g : Guardian) :
  quiescent w -> heap w !! l = Some g ->
  Reset (Some l) w =
  Ret tt {| instance := None; initOnce := false; heap := heap w;
            trace := trace w ++ stopEvents w |}.
Proof.
  intros [Hmu Hinst] Hl.
  assert (mu g = false) as Hg by by eapply (proj1 (Forall_lookup _ _) Hmu).
  unfold Reset, stopEvents. unfold bind at 1. unfold getInstanceVar.
  destruct (instance w) as [i|] eqn:Hi.
  - destruct (lookup_lt_is_Some_2 (heap w) i (Hinst i eq_refl)) as [gi Hgi].
    assert (mu gi = false) as Hgim by by eapply (proj1 (Forall_lookup _ _) Hmu).
    unfold bind at 1. rewrite (Stop_run w i gi) by done. rewrite Hgi.
    fold (managerStop gi).
    unfold bind at 1. rewrite (Lock_run _ l g) by done.
    go_steps. unfold setInstanceVar, setInitOnce. simpl.
    by rewrite (Unlock_Lock w l g).
  - unfold bind at 1. unfold ret at 1.
    unfold bind at 1. rewrite (Lock_run _ l g) by done.
    go_steps. unfold setInstanceVar, setInitOnce. simpl.
    rewrite (Unlock_Lock w l g) by done. by rewrite app_nil_r.
Qed.

(** [Reset] through a pointer that leads to no [Guardian] (nil above all)
    aborts at [p.mu.Lock()], after the current instance has been stopped. *)
Lemma Reset_stuck (w : World) (p : ptr) :
  quiescent w ->
  match p with
  | Some l => heap w !! l = None
  | None => True
  end ->
  Reset p w = Stuck NilDereference (addTrace w (stopEvents w)).
Proof.
  intros [Hmu Hinst] Hp.
  assert (forall w', heap w' = heap w -> Lock p w' = Stuck NilDereference w') as HLock.
  { intros w' Hw'. unfold Lock, bind, load. destruct p as [l|]; [|done]. by rewrite Hw', Hp. }
  unfold Reset, stopEvents. unfold bind at 1. unfold getInstanceVar.
  destruct (instance w) as [i|] eqn:Hi.
  - destruct (lookup_lt_is_Some_2 (heap w) i (Hinst i eq_refl)) as [gi Hgi].
    assert (mu gi = false) as Hgim by by eapply (proj1 (Forall_lookup _ _) Hmu).
    unfold bind at 1. rewrite (Stop_run w i gi) by done. rewrite Hgi.
    fold (managerStop gi). unfold bind at 1. by rewrite HLock.
  - unfold bind at 1. unfold ret at 1. unfold bind at 1.
    rewrite HLock by done. by rewrite addTrace_nil.
Qed.

(** ** Invariants of runs *)

Lemma perform_CheckTransaction_world
      (w w' : World) (p : ptr) (signer : Signer) (tx : Transaction) :
  perform (CallCheckTransaction p signer tx) w = Ret tt w' -> exists evs, w' = addTrace w evs.
Proof.
  simpl. unfold bind. intros Hp.
  destruct (CheckTransaction_world w p signer tx) as (evs & Hevs & _).
  destruct (CheckTransaction p signer tx w) as [b w1|why w1]; [|done].
  simpl in *. exists evs. unfold ret in Hp. congruence.
Qed.

Lemma perform_GetInstance_world (w w' : World) :
  perform CallGetInstance w = Ret tt w' -> w' = w.
Proof.
  simpl. unfold GetInstance, bind, getInstanceVar, ret.
  destruct (instance w); congruence.
Qed.

Lemma perform_Stop_vars (w w' : World) (p : ptr) :
  perform (CallStop p) w = Ret tt w' -> instance w' = instance w /\ initOnce w' = initOnce w.
Proof.
  simpl. intros Hp. pose proof (Stop_vars w p) as Hv. by rewrite Hp in Hv.
Qed.

(** Every reachable world is quiescent. *)
Lemma perform_quiescent (w w' : World) (c : Call) :
  quiescent w -> perform c w = Ret tt w' -> quiescent w'.
Proof.
  intros Hq Hp. destruct c as [config| |p signer tx|p|p].
  - simpl in Hp. destruct (initOnce w) eqn:Hd.
    { rewrite InitInstance_spent in Hp by done. congruence. }
    rewrite InitInstance_fresh in Hp by done.
    destruct (Disabled config); [injection Hp as <-; exact Hq|].
    destruct Hq as [Hmu Hinst].
    destruct (newGuardian_cases config w) as [evs [[e He]|[g [Hg Hgm]]]].
    + rewrite He in Hp. injection Hp as <-. by split.
    + rewrite Hg in Hp. injection Hp as <-. split; simpl.
      * apply Forall_app. split; [done|]. by constructor.
      * intros l [= <-]. rewrite length_app. simpl. lia.
  - apply perform_GetInstance_world in Hp. by subst.
  - apply perform_CheckTransaction_world in Hp as [evs ->]. exact Hq.
  - simpl in Hp. destruct p as [l|]; [|done].
    destruct (heap w !! l) as [g|] eqn:Hl.
    + rewrite (Stop_run w l g) in Hp; [injection Hp as <-; exact Hq|done|].
      by eapply (proj1 (Forall_lookup _ _) (proj1 Hq)).
    + unfold Stop, Lock, bind, load in Hp. by rewrite Hl in Hp.
  - simpl in Hp. destruct p as [l|]; [|by rewrite Reset_stuck in Hp].
    destruct (heap w !! l) as [g|] eqn:Hl; [|by rewrite Reset_stuck in Hp].
    rewrite (Reset_run w l g) in Hp by done. injection Hp as <-.
    split; [apply Hq|done].
Qed.

Lemma reachable_quiescent (w : World) : reachable w -> quiescent w.
Proof.
  induction 1 as [|w w' c _ IH Hp]; [by split|]. by eapply perform_quiescent.
Qed.

(** A call that is no successful initialization leaves a nil [instance] nil. *)
Lemma perform_keeps_nil (w w' : World) (c : Call) :
  instance w = None ->
  match c with
  | CallInitInstance config => initializes config w
  | _ => false
  end = false ->
  perform c w = Ret tt w' ->
  instance w' = None.
Proof.
  intros Hi Hn Hp. destruct c as [config| |p signer tx|p|p].
  - simpl in Hp. destruct (initOnce w) eqn:Hd.
    { rewrite InitInstance_spent in Hp by done. congruence. }
    rewrite InitInstance_fresh in Hp by done.
    unfold initializes in Hn. rewrite Hd in Hn.
    destruct (Disabled config); [by injection Hp as <-|].
    destruct (newGuardian config w) as [[g [e|]] w1|why w1] eqn:Hng; try done.
    destruct (newGuardian_cases config w) as [evs [[e' He]|[g' [Hg _]]]]; [|congruence].
    rewrite He in Hng. injection Hng as <- <- <-. by injection Hp as <-.
  - apply perform_GetInstance_world in Hp. by subst.
  - apply perform_CheckTransaction_world in Hp as [evs ->]. exact Hi.
  - apply perform_Stop_vars in Hp as [-> _]. exact Hi.
  - simpl in Hp. unfold Reset, bind, getInstanceVar in Hp. rewrite Hi in Hp.
    unfold ret, Lock, Unlock, bind, load, setMu, setInstanceVar, setInitOnce, panic in Hp.
    destruct p as [l|]; [|done].
    destruct (heap w !! l) as [g|] eqn:Hl; [|done].
    destruct (mu g); [done|]. rewrite Hl in Hp. simpl in Hp.
    rewrite list_lookup_insert_eq in Hp by by eapply lookup_lt_Some.
    simpl in Hp. rewrite list_lookup_insert_eq in Hp by by eapply lookup_lt_Some.
    by injection Hp as <-.
Qed.

Lemma performAll_keeps_nil (cs : list Call) (w w' : World) :
  instance w = None ->
  initializesIn cs w = false ->
  performAll cs w = Ret tt w' ->
  instance w' = None.
Proof.
  revert w. induction cs as [|c cs IH]; intros w Hi Hn Hp; simpl in *.
  - unfold ret in Hp. congruence.
  - unfold bind in Hp. apply orb_false_iff in Hn as [Hc Hcs].
    destruct (perform c w) as [[] w1|why w1] eqn:Hpc; [|done].
    eapply (IH w1); [|done..]. by eapply perform_keeps_nil.
Qed.

(** With the guard spent and no instance, a call other than [Reset] changes
    neither package variable. *)
Lemma perform_spent (w w' : World) (c : Call) :
  initOnce w = true -> instance w = None -> isReset c = false ->
  perform c w = Ret tt w' ->
  initOnce w' = true /\ instance w' = None.
Proof.
  intros Hd Hi Hr Hp. destruct c as [config| |p signer tx|p|p]; [| | | |done].
  - simpl in Hp. rewrite InitInstance_spent in Hp by done. by injection Hp as <-.
  - apply perform_GetInstance_world in Hp. by subst.
  - by apply perform_CheckTransaction_world in Hp as [evs ->].
  - apply perform_Stop_vars in Hp as [-> ->]. done.
Qed.

Lemma performAll_spent (cs : list Call) (w w' : World) :
  initOnce w = true -> instance w = None ->
  forallb (fun c => negb (isReset c)) cs = true ->
  performAll cs w = Ret tt w' ->
  initOnce w' = true /\ instance w' = None.
Proof.
  revert w. induction cs as [|c cs IH]; intros w Hd Hi Hr Hp; simpl in *.
  - unfold ret in Hp. by injection Hp as <-.
  - unfold bind in Hp. apply andb_true_iff in Hr as [Hc Hcs].
    destruct (perform c w) as [[] w1|why w1] eqn:Hpc; [|done].
    destruct (perform_spent w w1 c) as [Hd1 Hi1]; try done.
    + by destruct (isReset c).
    + by eapply (IH w1).
Qed.

(** ** The claims on the singleton *)

(** C6, amended.  [InitInstance] with a disabled config constructs nothing and
    leaves [instance] as it was: the heap is as before, nothing but the
    warning is logged (and that only when the guard was fresh), and the
    guard is spent afterwards.  When no instance was installed at the call,
    [instance] stays nil and, after any run of calls without a successful
    initialization, [GetInstance] returns a nil pointer and the error
    "guardian is not initialized".  When an instance was installed, the call
    changes nothing and [GetInstance] keeps returning that instance. *)
Theorem InitInstance_disabled (w : World) (config : Config) :
  Disabled config = true ->
  exists w1,
    InitInstance config w = Ret tt w1 /\
    heap w1 = heap w /\
    instance w1 = instance w /\
    initOnce w1 = true /\
    (initOnce w = true -> w1 = w) /\
    (initOnce w = false -> trace w1 = trace w ++ [EvLog LvlWarn "Guardian is disabled" []]) /\
    (instance w = None ->
     forall cs w2,
       performAll cs w1 = Ret tt w2 ->
       initializesIn cs w1 = false ->
       GetInstance w2 = Ret (None, Some "guardian is not initialized") w2) /\
    (forall l, instance w = Some l -> GetInstance w1 = Ret (Some l, None) w1).
Proof.
  intros Hdis.
  assert (forall w1, instance w1 = instance w ->
            (instance w = None ->
             forall cs w2, performAll cs w1 = Ret tt w2 -> initializesIn cs w1 = false ->
                           GetInstance w2 = Ret (None, Some "guardian is not initialized") w2) /\
            (forall l, instance w = Some l -> GetInstance w1 = Ret (Some l, None) w1))
    as Hlater.
  { intros w1 Hi1. split.
    - intros Hi cs w2 Hp Hn. apply GetInstance_nil.
      eapply performAll_keeps_nil; [|done..]. congruence.
    - intros l Hl. unfold GetInstance, bind, getInstanceVar. by rewrite Hi1, Hl. }
  destruct (initOnce w) eqn:Hd.
  - exists w. rewrite InitInstance_spent by done.
    do 5 (split; [done|]). split; [done|]. by apply Hlater.
  - eexists. rewrite InitInstance_fresh, Hdis by done.
    split; [done|]. simpl. do 4 (split; [done|]). split; [done|]. by apply Hlater.
Qed.

(** C9. [InitInstance] with a fresh guard that installs nothing (the config
    is disabled, or [newGuardian] fails) spends the guard all the same.  In
    every world reached afterwards by calls other than [Reset], any
    [InitInstance], whatever its config, returns without touching the world,
    and [GetInstance] returns the "guardian is not initialized" error. *)
Theorem initOnce_spent_without_instance (w : World) (config : Config) :
  initOnce w = false ->
  instance w = None ->
  (Disabled config = true \/
   exists g e w', newGuardian config w = Ret (g, Some e) w') ->
  exists w1,
    InitInstance config w = Ret tt w1 /\
    initOnce w1 = true /\
    instance w1 = None /\
    forall cs w2,
      forallb (fun c => negb (isReset c)) cs = true ->
      performAll cs w1 = Ret tt w2 ->
      (forall config', InitInstance config' w2 = Ret tt w2) /\
      GetInstance w2 = Ret (None, Some "guardian is not initialized") w2.
Proof.
  intros Hd Hi Hcause.
  assert (forall w1, initOnce w1 = true -> instance w1 = None ->
            forall cs w2, forallb (fun c => negb (isReset c)) cs = true ->
                          performAll cs w1 = Ret tt w2 ->
                          (forall config', InitInstance config' w2 = Ret tt w2) /\
                          GetInstance w2 = Ret (None, Some "guardian is not initialized") w2)
    as Hlater.
  { intros w1 Hd1 Hi1 cs w2 Hr Hp.
    destruct (performAll_spent cs w1 w2) as [Hd2 Hi2]; try done.
    split; [intros config'; by apply InitInstance_spent|by apply GetInstance_nil]. }
  rewrite InitInstance_fresh by done.
  destruct (Disabled config) eqn:Hdis.
  { eexists. split; [done|]. simpl. do 2 (split; [done|]). by apply Hlater. }
  destruct Hcause as [?|(g & e & w' & Hng)]; [done|].
  rewrite Hng.
  destruct (newGuardian_cases config w) as [evs [[e' He]|[g' [Hg _]]]]; [|congruence].
  rewrite He in Hng. injection Hng as <- <- <-.
  eexists. split; [done|]. simpl. do 2 (split; [done|]). by apply Hlater.
Qed.

(** C7, amended.  Called through a pointer to a [Guardian], in a quiescent
    world, [Reset] returns; it has stopped the manager of the current
    instance if there is one, [instance] is nil and the guard is fresh, so
    that the next [InitInstance] with an enabled config runs [newGuardian]
    and installs what it returns.  That holds too when no instance was ever
    created ([instance] nil, guard fresh or spent). *)
Theorem Reset_on_a_Guardian (w : World) (l : nat) (g : Guardian) :
  quiescent w ->
  heap w !! l = Some g ->
  exists w1,
    Reset (Some l) w = Ret tt w1 /\
    instance w1 = None /\
    initOnce w1 = false /\
    heap w1 = heap w /\
    trace w1 = trace w ++ stopEvents w /\
    (instance w = None -> trace w1 = trace w) /\
    forall config p w2,
      Disabled config = false ->
      newGuardian config w1 = Ret (p, None) w2 ->
      InitInstance config w1 =
      Ret tt {| instance := p; initOnce := true; heap := heap w2; trace := trace w2 |} /\
      p = Some (length (heap w)).
Proof.
  intros Hq Hl. eexists. rewrite (Reset_run w l g) by done.
  split; [done|]. simpl. do 4 (split; [done|]). split.
  { intros Hi. unfold stopEvents. rewrite Hi. by rewrite app_nil_r. }
  intros config p w2 Hen Hng. split.
  - rewrite InitInstance_fresh by done. by rewrite Hen, Hng.
  - destruct (newGuardian_cases config
               {| instance := None; initOnce := false; heap := heap w;
                  trace := trace w ++ stopEvents w |}) as [evs [[e He]|[g' [Hg _]]]];
      simpl in *; congruence.
Qed.

(** ** The default path *)

Lemma getDefaultPath_supported (homeDir rel : string) :
  user_Current = (homeDir, None) ->
  (GOOS = "linux" /\ rel = linuxPath) \/ (GOOS = "darwin" /\ rel = darwinPath) ->
  getDefaultPath = (filepath_Join homeDir rel, None).
Proof.
  intros Hu Hos. unfold getDefaultPath. rewrite Hu.
  by destruct Hos as [[-> ->]|[-> ->]].
Qed.

Lemma getDefaultPath_unsupported :
  GOOS <> "linux" -> GOOS <> "darwin" -> exists e, getDefaultPath = ("", Some e).
Proof.
  intros Hl Hd. unfold getDefaultPath.
  destruct user_Current as [homeDir [e|]]; [by exists e|].
  apply String.eqb_neq in Hl, Hd. rewrite Hl, Hd. by eexists.
Qed.

(** C8. With no [FilterFilePath] configured: on linux and on darwin, once
    [user.Current] has given the home directory, the snapshot is read from
    the home directory joined with "geth/guardian" (linux) or
    "Library/Story/geth/guardian" (darwin) and then with "bloom_filter.gob",
    which is the home directory joined with the whole relative path whenever
    [filepath.Join] nests that way; on any other platform [newGuardian]
    returns nil and an error without any call or allocation, and
    [InitInstance] installs no instance. *)
Theorem default_snapshot_path (w : World) (config : Config) :
  FilterFilePath config = "" ->
  (forall homeDir rel,
      user_Current = (homeDir, None) ->
      (GOOS = "linux" /\ rel = "geth/guardian") \/
      (GOOS = "darwin" /\ rel = "Library/Story/geth/guardian") ->
      filterFilePath config =
        inl (filepath_Join (filepath_Join homeDir rel) "bloom_filter.gob") /\
      (exists r w' evs,
          newGuardian config w = Ret r w' /\
          trace w' = trace w ++
            EvLoadFilter (filepath_Join (filepath_Join homeDir rel) "bloom_filter.gob") :: evs) /\
      (filepath_Join (filepath_Join homeDir rel) "bloom_filter.gob" =
         filepath_Join homeDir (rel ++ "/bloom_filter.gob") ->
       filterFilePath config = inl (filepath_Join homeDir (rel ++ "/bloom_filter.gob")))) /\
  (GOOS <> "linux" -> GOOS <> "darwin" ->
   (exists e, newGuardian config w = Ret (None, Some e) w) /\
   exists w1,
     InitInstance config w = Ret tt w1 /\
     heap w1 = heap w /\
     (initOnce w = false -> Disabled config = false -> instance w1 = None) /\
     (instance w = None -> instance w1 = None)).
Proof.
  intros Hempty. apply String.eqb_eq in Hempty. split.
  - intros homeDir rel Hu Hos.
    assert (filterFilePath config =
            inl (filepath_Join (filepath_Join homeDir rel) "bloom_filter.gob")) as Hpath.
    { unfold filterFilePath. rewrite Hempty.
      rewrite (getDefaultPath_supported homeDir rel); [done..|].
      by destruct Hos as [[? ->]|[? ->]]; [left|right]. }
    split; [done|]. split; [|by intros <-].
    unfold newGuardian. rewrite Hpath.
    unfold call_NewBloomFilterStoreFromFile, call_NewFileWatcherNotifier, call_manager_Start.
    go_steps.
    destruct (NewBloomFilterStoreFromFile _) as [st [e|]]; [by do 3 eexists|].
    go_steps.
    destruct (NewFileWatcherNotifier _ 10) as [nt [e|]]; [by do 3 eexists|].
    go_steps.
    destruct (manager_Start (NewReloadManager st nt)) as [e|]; [by do 3 eexists|].
    go_steps. unfold alloc. simpl. rewrite <- app_assoc. by do 3 eexists.
  - intros Hl Hd.
    destruct (getDefaultPath_unsupported Hl Hd) as [e He].
    assert (newGuardian config w = Ret (None, Some e) w) as Hng.
    { unfold newGuardian, filterFilePath. by rewrite Hempty, He. }
    split; [by exists e|].
    destruct (initOnce w) eqn:Hdone.
    + exists w. by rewrite InitInstance_spent.
    + rewrite InitInstance_fresh by done.
      destruct (Disabled config) eqn:Hdis; [by eexists|].
      rewrite Hng. by eexists.
Qed.

End Properties.

(** * Further properties *)

Section Further.

Context {geth : GoEthereum} {logger : FilteredEntryLogger} {adb : AddressDB} {rt : Runtime}.

Local Ltac go_run :=
  repeat (progress (unfold bind, log_, emit, ret; simpl)); rewrite ?addTrace_app; simpl.

Lemma bind_Ret {A B : Type} (m : M A) (k : A -> M B) (w w1 : World) (a : A) :
  m w = Ret a w1 -> bind m k w = k a w1.
Proof. intros Hm. unfold bind. by rewrite Hm. Qed.

Lemma bind_Stuck {A B : Type} (m : M A) (k : A -> M B) (w w1 : World) (why : Abort) :
  m w = Stuck why w1 -> bind m k w = Stuck why w1.
Proof. intros Hm. unfold bind. by rewrite Hm. Qed.

(** ** Returns of [Lock], [Stop] and [Reset] *)

Lemma Lock_Ret (p : ptr) (w w' : World) :
  Lock p w = Ret tt w' ->
  exists l g, p = Some l /\ heap w !! l = Some g /\ mu g = false.
Proof.
  unfold Lock, bind, load, panic. destruct p as [l|]; [|done].
  destruct (heap w !! l) as [g|] eqn:Hl; [|done].
  destruct (mu g) eqn:Hm; [done|]. intros _. by exists l, g.
Qed.

Lemma Stop_Ret (p : ptr) (w w' : World) :
  Stop p w = Ret tt w' ->
  exists l g, p = Some l /\ heap w !! l = Some g /\ mu g = false /\
              w' = addTrace w (managerStop g).
Proof.
  intros Hs.
  assert (exists l g, p = Some l /\ heap w !! l = Some g /\ mu g = false)
    as (l & g & -> & Hl & Hm).
  { unfold Stop in Hs. unfold bind at 1 in Hs.
    destruct (Lock p w) as [[] w1|why w1] eqn:HL; [|done]. by eapply Lock_Ret. }
  exists l, g. rewrite (Stop_run w l g) in Hs by done. by injection Hs as <-.
Qed.

Lemma Reset_Ret (p : ptr) (w w' : World) :
  Reset p w = Ret tt w' ->
  heap w' = heap w /\ instance w' = None /\ initOnce w' = false /\
  exists evs, trace w' = trace w ++ evs.
Proof.
  unfold Reset. unfold bind at 1. unfold getInstanceVar.
  assert (forall evs,
             bind (Lock p) (fun _ => bind (setInstanceVar None)
                   (fun _ => bind (setInitOnce false) (fun _ => Unlock p)))
                  (addTrace w evs) = Ret tt w' ->
             heap w' = heap w /\ instance w' = None /\ initOnce w' = false /\
             exists evs', trace w' = trace w ++ evs') as Htail.
  { intros evs Hrun. unfold bind at 1 in Hrun.
    destruct (Lock p (addTrace w evs)) as [[] w1|why w1] eqn:HL; [|done].
    destruct (Lock_Ret _ _ _ HL) as (l & g & -> & Hl & Hm).
    rewrite (Lock_run _ l g) in HL by done. injection HL as <-.
    go_run. unfold setInstanceVar, setInitOnce in Hrun. go_run.
    unfold bind, setInstanceVar, setInitOnce in Hrun. simpl in Hrun.
    rewrite (Unlock_Lock (addTrace w evs) l g) in Hrun by done.
    injection Hrun as <-. simpl. by eauto. }
  destruct (instance w) as [i|].
  - unfold bind at 1. destruct (Stop (Some i) w) as [[] w1|why w1] eqn:HS; [|done].
    apply Stop_Ret in HS as (l & g & _ & _ & _ & ->). apply Htail.
  - unfold bind at 1. unfold ret at 1. intros Hrun.
    apply (Htail []). by rewrite addTrace_nil.
Qed.

(** ** [Stop] *)

(** X1. [Stop] on a [Guardian] whose mutex is free stops its manager, frees
    the mutex again and changes nothing else, the [manager] field included:
    so it can be called any number of times, and each call stops the manager
    once more. *)
Theorem Stop_any_number_of_times (w : World) (l : nat) (g : Guardian) (n : nat) :
  heap w !! l = Some g ->
  mu g = false ->
  performAll (repeat (CallStop (Some l)) n) w
  = Ret tt (addTrace w (concat (repeat (managerStop g) n))).
Proof.
  intros Hl Hm. revert w Hl.
  induction n as [|n IH]; intros w Hl; simpl.
  - unfold ret. by rewrite addTrace_nil.
  - unfold bind. rewrite (Stop_run w l g) by done.
    rewrite (IH (addTrace w (managerStop g))) by done.
    by rewrite addTrace_app.
Qed.

(** X2. [Stop] returns exactly when its receiver points to a [Guardian] whose
    mutex is free.  Through a nil pointer it aborts on the dereference, and
    on a held mutex the caller blocks; in both cases nothing has happened. *)
Theorem Stop_returns_iff (w : World) (p : ptr) :
  ((exists w', Stop p w = Ret tt w') <->
   (exists l g, p = Some l /\ heap w !! l = Some g /\ mu g = false)) /\
  (p = None -> Stop p w = Stuck NilDereference w) /\
  (forall l g, p = Some l -> heap w !! l = Some g -> mu g = true ->
               Stop p w = Stuck Deadlock w).
Proof.
  split; [split|split].
  - intros [w' Hs]. apply Stop_Ret in Hs as (l & g & ? & ? & ? & _). by exists l, g.
  - intros (l & g & -> & Hl & Hm). eexists. by apply Stop_run.
  - by intros ->.
  - intros l g -> Hl Hm. unfold Stop, Lock, bind, load, panic. by rewrite Hl, Hm.
Qed.

(** ** [newGuardian] *)

(** [newGuardian], step by step. *)
Lemma newGuardian_run (config : Config) (w : World) :
  newGuardian config w =
  match filterFilePath config with
  | inr e => Ret (None, Some e) w
  | inl path =>
    match NewBloomFilterStoreFromFile path with
    | (_, Some e) => Ret (None, Some e) (addTrace w [EvLoadFilter path])
    | (st, None) =>
      match NewFileWatcherNotifier path 10 with
      | (_, Some e) => Ret (None, Some e) (addTrace w [EvLoadFilter path; EvWatchFile path 10])
      | (nt, None) =>
        match manager_Start (NewReloadManager st nt) with
        | Some e =>
          Ret (None, Some e)
              (addTrace w [EvLoadFilter path; EvWatchFile path 10;
                           EvManagerStart (NewReloadManager st nt)])
        | None =>
          Ret (Some (length (heap w)), None)
              (constructed w (constructedGuardian st nt) (constructionEvents path st nt))
        end
      end
    end
  end.
Proof.
  unfold newGuardian.
  destruct (filterFilePath config) as [path|e]; [|done].
  unfold call_NewBloomFilterStoreFromFile, call_NewFileWatcherNotifier, call_manager_Start.
  go_run.
  destruct (NewBloomFilterStoreFromFile path) as [st [e|]]; [done|]. go_run.
  destruct (NewFileWatcherNotifier path 10) as [nt [e|]]; [done|]. go_run.
  destruct (manager_Start (NewReloadManager st nt)) as [e|]; [done|]. go_run.
  unfold alloc, constructed, constructionEvents, constructedGuardian. simpl.
  by rewrite <- app_assoc.
Qed.

(** X3. [newGuardian] is all or nothing and never aborts.  It returns a nil
    pointer exactly when it returns an error; then nothing is allocated and
    the calls it made stop at the step that failed (the snapshot load, the
    file watcher, the manager's start), with nothing undone.  Without an
    error the pointer is the address of one new [Guardian] with a manager
    and a free mutex.  The package variables are not touched. *)
Theorem newGuardian_all_or_nothing (config : Config) (w : World) :
  exists p err evs w',
    newGuardian config w = Ret (p, err) w' /\
    instance w' = instance w /\ initOnce w' = initOnce w /\
    trace w' = trace w ++ evs /\
    (p = None <-> err <> None) /\
    (err = None ->
     p = Some (length (heap w)) /\
     exists g, heap w' = heap w ++ [g] /\ mu g = false /\ is_Some (manager g)) /\
    (err <> None ->
     heap w' = heap w /\
     (evs = [] \/
      exists path,
        evs = [EvLoadFilter path] \/
        evs = [EvLoadFilter path; EvWatchFile path 10] \/
        exists m, evs = [EvLoadFilter path; EvWatchFile path 10; EvManagerStart m])).
Proof.
  rewrite newGuardian_run.
  destruct (filterFilePath config) as [path|e].
  2:{ exists None, (Some e), [], w. rewrite app_nil_r.
      repeat split; try done. by left. }
  destruct (NewBloomFilterStoreFromFile path) as [st [e|]].
  { do 4 eexists. split; [done|]. simpl. repeat split; try done.
    right. exists path. by left. }
  destruct (NewFileWatcherNotifier path 10) as [nt [e|]].
  { do 4 eexists. split; [done|]. simpl. repeat split; try done.
    right. exists path. right. by left. }
  destruct (manager_Start (NewReloadManager st nt)) as [e|].
  { do 4 eexists. split; [done|]. simpl. repeat split; try done.
    right. exists path. right. right. by eexists. }
  do 4 eexists. split; [done|]. simpl. repeat split; try done.
  exists (constructedGuardian st nt). by repeat split.
Qed.

(** ** [InitInstance] and [GetInstance] *)

(** X4. When the guard is fresh, the config enabled, and the snapshot loads,
    the watcher is created and the manager starts, [InitInstance] installs
    the new [Guardian] and [GetInstance] hands out its address without an
    error.  The [Guardian] holds the store read from the resolved path and a
    manager whose notifier polls that same path every 10 seconds. *)
Theorem InitInstance_then_GetInstance
        (w : World) (config : Config) (path : string)
        (st : option BloomFilterStore) (nt : option FileWatcherNotifier) :
  initOnce w = false ->
  Disabled config = false ->
  filterFilePath config = inl path ->
  NewBloomFilterStoreFromFile path = (st, None) ->
  NewFileWatcherNotifier path 10 = (nt, None) ->
  manager_Start (NewReloadManager st nt) = None ->
  exists w1,
    InitInstance config w = Ret tt w1 /\
    GetInstance w1 = Ret (Some (length (heap w)), None) w1 /\
    load (Some (length (heap w))) w1 = Ret (constructedGuardian st nt) w1 /\
    initOnce w1 = true /\
    heap w1 = heap w ++ [constructedGuardian st nt] /\
    trace w1 = trace w ++ constructionEvents path st nt.
Proof.
  intros Hfresh Hen Hpath Hst Hnt Hstart.
  rewrite InitInstance_fresh, Hen, newGuardian_run, Hpath, Hst, Hnt, Hstart by done.
  eexists. split; [done|]. simpl. repeat split.
  unfold load. simpl. rewrite lookup_app_r by done.
  by rewrite Nat.sub_diag.
Qed.

(** X5. The first [InitInstance] decides: it always returns, with the guard
    spent, and from then on [InitInstance] with any config whatever returns
    without changing the world.  A later disabled config does not remove an
    installed instance, and a later enabled one does not repair a failure. *)
Theorem InitInstance_first_call_decides (w : World) (config : Config) :
  exists w1,
    InitInstance config w = Ret tt w1 /\
    initOnce w1 = true /\
    forall config', InitInstance config' w1 = Ret tt w1.
Proof.
  assert (exists w1, InitInstance config w = Ret tt w1 /\ initOnce w1 = true)
    as (w1 & Hrun & Hdone).
  { destruct (initOnce w) eqn:Hd.
    - exists w. by rewrite InitInstance_spent.
    - rewrite InitInstance_fresh by done.
      destruct (Disabled config); [by eexists|].
      destruct (newGuardian_cases config w) as [evs [[e ->]|[g [-> _]]]]; by eexists. }
  exists w1. split; [done|]. split; [done|].
  intros config'. by apply InitInstance_spent.
Qed.

(** ** [getDefaultPath] *)

(** X6. [getDefaultPath] returns an error exactly when [user.Current] fails
    or the platform is neither linux nor darwin.  A failure of
    [user.Current] comes first: its error is returned on every platform; the
    "unsupported OS" error is returned only once the user is known.  With an
    error the path is empty. *)
Theorem getDefaultPath_errors :
  (snd getDefaultPath = None <->
   snd user_Current = None /\ (GOOS = "linux" \/ GOOS = "darwin")) /\
  (forall e, snd user_Current = Some e -> getDefaultPath = ("", Some e)) /\
  (snd user_Current = None -> GOOS <> "linux" -> GOOS <> "darwin" ->
   getDefaultPath = ("", Some "unsupported OS for guardian")) /\
  (snd getDefaultPath <> None -> fst getDefaultPath = "").
Proof.
  unfold getDefaultPath.
  destruct user_Current as [homeDir [e|]]; simpl.
  { repeat split; try done; [by intros [? _]|by intros e' [= <-]]. }
  destruct (GOOS =? "linux") eqn:Hl; [apply String.eqb_eq in Hl|apply String.eqb_neq in Hl].
  { repeat split; try done; by auto. }
  destruct (GOOS =? "darwin") eqn:Hd; [apply String.eqb_eq in Hd|apply String.eqb_neq in Hd].
  { repeat split; try done; by auto. }
  repeat split; try done. by intros [_ [?|?]].
Qed.

(** ** Invariants of the heap and of the singleton *)

Lemma loads_app (a b : list Event) : loads (a ++ b) = loads a + loads b.
Proof.
  induction a as [|e a IH]; simpl; [done|].
  destruct e; simpl; by rewrite ?IH.
Qed.

Lemma loads_observes (evs : list Event) : forallb observes evs = true -> loads evs = 0.
Proof.
  induction evs as [|e evs IH]; simpl; [done|].
  intros [He Hevs]%andb_true_iff. destruct e; simpl in *; try done; by apply IH.
Qed.

Lemma loads_managerStop (g : Guardian) : loads (managerStop g) = 0.
Proof. unfold managerStop. by destruct (manager g). Qed.

(** One call other than [Reset]: either the heap and the guard stay and no
    snapshot is loaded, or the call is the [InitInstance] that spends a fresh
    guard. *)
Lemma perform_once (c : Call) (w w1 : World) :
  isReset c = false ->
  perform c w = Ret tt w1 ->
  exists gs evs,
    heap w1 = heap w ++ gs /\ trace w1 = trace w ++ evs /\
    ((gs = [] /\ loads evs = 0 /\ initOnce w1 = initOnce w) \/
     (initOnce w = false /\ initOnce w1 = true /\ length gs <= 1 /\ loads evs <= 1)).
Proof.
  intros Hr Hp. destruct c as [config| |p signer tx|p|p]; [| | | |done].
  - simpl in Hp. destruct (initOnce w) eqn:Hd.
    { rewrite InitInstance_spent in Hp by done. injection Hp as <-.
      exists [], []. rewrite !app_nil_r. split; [done|]. split; [done|]. by left. }
    rewrite InitInstance_fresh in Hp by done.
    destruct (Disabled config).
    { injection Hp as <-. exists [], [EvLog LvlWarn "Guardian is disabled" []].
      simpl. rewrite app_nil_r. split; [done|]. split; [done|]. right. repeat split; lia. }
    rewrite newGuardian_run in Hp.
    destruct (filterFilePath config) as [path|e].
    2:{ injection Hp as <-. eexists [], _. simpl. rewrite app_nil_r.
        split; [done|]. split; [done|]. right. repeat split; simpl; lia. }
    destruct (NewBloomFilterStoreFromFile path) as [st [e|]].
    { injection Hp as <-. eexists [], _. simpl. rewrite app_nil_r, <- app_assoc.
      split; [done|]. split; [done|]. right. repeat split; simpl; lia. }
    destruct (NewFileWatcherNotifier path 10) as [nt [e|]].
    { injection Hp as <-. eexists [], _. simpl. rewrite app_nil_r, <- app_assoc.
      split; [done|]. split; [done|]. right. repeat split; simpl; lia. }
    destruct (manager_Start (NewReloadManager st nt)) as [e|].
    { injection Hp as <-. eexists [], _. simpl. rewrite app_nil_r, <- app_assoc.
      split; [done|]. split; [done|]. right. repeat split; simpl; lia. }
    injection Hp as <-. eexists [_], _. simpl.
    split; [done|]. split; [done|]. right. repeat split; simpl; lia.
  - apply perform_GetInstance_world in Hp as ->.
    exists [], []. rewrite !app_nil_r. split; [done|]. split; [done|]. by left.
  - simpl in Hp. unfold bind in Hp.
    destruct (CheckTransaction_world w p signer tx) as (evs & Hw & Hobs).
    destruct (CheckTransaction p signer tx w) as [b w2|why w2]; [|done].
    simpl in Hw. unfold ret in Hp. injection Hp as <-. subst w2.
    exists [], evs. simpl. rewrite app_nil_r. split; [done|]. split; [done|].
    left. split; [done|]. split; [by apply loads_observes|done].
  - simpl in Hp. apply Stop_Ret in Hp as (l & g & _ & _ & _ & ->).
    exists [], (managerStop g). simpl. rewrite app_nil_r. split; [done|]. split; [done|].
    left. split; [done|]. split; [apply loads_managerStop|done].
Qed.

(** One call, [Reset] included: the [Guardian]s there are stay as they are. *)
Lemma perform_heap (c : Call) (w w1 : World) :
  perform c w = Ret tt w1 -> exists gs, heap w1 = heap w ++ gs.
Proof.
  intros Hp. destruct (isReset c) eqn:Hr.
  - destruct c; try done. simpl in Hp. apply Reset_Ret in Hp as [-> _].
    exists []. by rewrite app_nil_r.
  - destruct (perform_once c w w1 Hr Hp) as (gs & _ & Hh & _). by exists gs.
Qed.

Lemma performAll_heap (cs : list Call) (w w' : World) :
  performAll cs w = Ret tt w' -> exists gs, heap w' = heap w ++ gs.
Proof.
  revert w. induction cs as [|c cs IH]; intros w Hp; simpl in Hp.
  - unfold ret in Hp. injection Hp as <-. exists []. by rewrite app_nil_r.
  - unfold bind in Hp. destruct (perform c w) as [[] w1|why w1] eqn:Hc; [|done].
    destruct (perform_heap c w w1 Hc) as [gs1 H1].
    destruct (IH w1 Hp) as [gs2 H2].
    exists (gs1 ++ gs2). by rewrite H2, H1, app_assoc.
Qed.

(** X7. No run of the package's calls changes or removes a [Guardian]: after
    the run every [Guardian] that existed before is found at its address
    with the filter and the manager it had (also after [Stop] and [Reset],
    which do not clear those fields) and with its mutex free as before; the
    heap only grows at its end. *)
Theorem Guardians_are_never_modified (cs : list Call) (w w' : World) :
  performAll cs w = Ret tt w' ->
  (exists gs, heap w' = heap w ++ gs) /\
  (forall l g, load (Some l) w = Ret g w -> load (Some l) w' = Ret g w').
Proof.
  intros Hp. destruct (performAll_heap cs w w' Hp) as [gs Hgs].
  split; [by exists gs|].
  intros l g. unfold load. rewrite Hgs.
  destruct (heap w !! l) as [g0|] eqn:Hl; [|done].
  intros [= ->]. rewrite lookup_app_l by by eapply lookup_lt_Some.
  by rewrite Hl.
Qed.

(** X8. Between two [Reset]s the package constructs at most once: in a run
    without [Reset], [newGuardian] gets to load a snapshot at most once and
    at most one [Guardian] is allocated, and nothing is loaded or allocated
    at all if the guard was already spent when the run began. *)
Theorem at_most_one_construction (cs : list Call) (w w' : World) :
  forallb (fun c => negb (isReset c)) cs = true ->
  performAll cs w = Ret tt w' ->
  exists gs evs,
    heap w' = heap w ++ gs /\ trace w' = trace w ++ evs /\
    length gs <= 1 /\ loads evs <= 1 /\
    (initOnce w = true -> gs = [] /\ loads evs = 0 /\ initOnce w' = true).
Proof.
  revert w. induction cs as [|c cs IH]; intros w Hr Hp; simpl in *.
  - unfold ret in Hp. injection Hp as <-. exists [], []. rewrite !app_nil_r.
    repeat split; simpl; try done; lia.
  - unfold bind in Hp. apply andb_true_iff in Hr as [Hc Hcs].
    apply negb_true_iff in Hc.
    destruct (perform c w) as [[] w1|why w1] eqn:Hpc; [|done].
    destruct (perform_once c w w1 Hc Hpc) as (gs1 & evs1 & Hh1 & Ht1 & Hcase).
    destruct (IH w1 Hcs Hp) as (gs2 & evs2 & Hh2 & Ht2 & Hl2 & Hn2 & Hspent).
    exists (gs1 ++ gs2), (evs1 ++ evs2).
    rewrite Hh2, Hh1, Ht2, Ht1, !app_assoc, length_app, loads_app.
    split; [done|]. split; [done|].
    destruct Hcase as [(-> & -> & Hsame)|(Hfresh & Hdone & Hl1 & Hn1)].
    + simpl. split; [done|]. split; [done|].
      intros Hd. rewrite Hsame in Hspent. by apply Hspent.
    + destruct (Hspent Hdone) as (-> & -> & _). rewrite app_nil_r.
      split; [simpl; lia|]. split; [lia|]. intros Hd. congruence.
Qed.

(** One call keeps the singleton well installed. *)
Lemma perform_installedWell (c : Call) (w w' : World) :
  installedWell w -> perform c w = Ret tt w' -> installedWell w'.
Proof.
  intros Hw Hp. destruct c as [config| |p signer tx|p|p].
  - simpl in Hp. destruct (initOnce w) eqn:Hd.
    { rewrite InitInstance_spent in Hp by done. by injection Hp as <-. }
    assert (instance w = None) as Hi.
    { destruct (instance w) as [l|] eqn:Hi; [|done].
      destruct (Hw l Hi) as [? _]. congruence. }
    rewrite InitInstance_fresh in Hp by done.
    destruct (Disabled config).
    { injection Hp as <-. intros l. simpl. by rewrite Hi. }
    rewrite newGuardian_run in Hp.
    destruct (filterFilePath config) as [path|e]; [|by injection Hp as <-].
    destruct (NewBloomFilterStoreFromFile path) as [st [e|]]; [by injection Hp as <-|].
    destruct (NewFileWatcherNotifier path 10) as [nt [e|]]; [by injection Hp as <-|].
    destruct (manager_Start (NewReloadManager st nt)) as [e|]; [by injection Hp as <-|].
    injection Hp as <-. intros l [= <-]. simpl. split; [done|].
    exists (constructedGuardian st nt). rewrite lookup_app_r, Nat.sub_diag by done.
    by repeat split.
  - apply perform_GetInstance_world in Hp. by subst.
  - apply perform_CheckTransaction_world in Hp as [evs ->]. exact Hw.
  - simpl in Hp. apply Stop_Ret in Hp as (l & g & _ & _ & _ & ->). exact Hw.
  - simpl in Hp. apply Reset_Ret in Hp as (_ & Hi & _). intros l. by rewrite Hi.
Qed.

(** X9. In every world the package's calls can reach from the start of the
    process, an installed instance comes with a spent guard and points to a
    [Guardian] of the heap that has a manager and a free mutex: the guard is
    never fresh while an instance is installed, and [GetInstance] never
    hands out a pointer that [Stop] or [Reset] would abort on. *)
Theorem instance_is_well_installed (w : World) :
  reachable w -> installedWell w.
Proof.
  induction 1 as [|w w' c _ IH Hp]; [by intros l|].
  by eapply perform_installedWell.
Qed.

(** ** [CheckTransaction], once more *)

Lemma hitEvents_observes (tx : Transaction) (from addr : string) :
  forallb observes (hitEvents tx from addr) = true.
Proof. unfold hitEvents. simpl. by destruct (writeFilteredEntry _). Qed.

Lemma hitEvents_entries (tx : Transaction) (from addr : string) :
  length (entries (hitEvents tx from addr)) = 1.
Proof. unfold hitEvents. simpl. by destruct (writeFilteredEntry _). Qed.

Lemma hitEvents_queries (tx : Transaction) (from addr : string) :
  queries (hitEvents tx from addr) = [ToLower addr].
Proof. unfold hitEvents. simpl. by destruct (writeFilteredEntry _). Qed.

(** [checkAddress] on any receiver. *)
Lemma checkAddress_full (w : World) (p : ptr) (tx : Transaction) (from addr : string) :
  checkAddress p tx from addr w =
  match p with
  | None => Stuck NilDereference w
  | Some l =>
    match heap w !! l with
    | None => Stuck NilDereference w
    | Some g =>
      match filter g with
      | None => Stuck NilDereference w
      | Some st =>
        match store_CheckAddress st (ToLower addr) with
        | (_, Some e) => Ret (false, Some e) (addTrace w [EvCheckAddress (ToLower addr)])
        | (true, None) => Ret (true, None) (addTrace w (hitEvents tx from addr))
        | (false, None) => Ret (false, None) (addTrace w [EvCheckAddress (ToLower addr)])
        end
      end
    end
  end.
Proof.
  destruct p as [l|]; [|done].
  destruct (heap w !! l) as [g|] eqn:Hl; [|by unfold checkAddress, bind, load; rewrite Hl].
  destruct (filter g) as [st|] eqn:Hf.
  - apply checkAddress_run. by exists l, g.
  - unfold checkAddress, bind, load. by rewrite Hl, Hf.
Qed.

(** On a [Guardian] with a filter [CheckTransaction] returns. *)
Lemma CheckTransaction_returns_guarded
      (w : World) (p : ptr) (st : BloomFilterStore) (signer : Signer) (tx : Transaction) :
  guards w p st ->
  exists b evs, CheckTransaction p signer tx w = Ret b (addTrace w evs) /\
                forallb observes evs = true.
Proof.
  intros Hg. destruct (types_Sender signer tx) as [sender [e|]] eqn:Hs.
  { unfold CheckTransaction. rewrite Hs. by do 2 eexists. }
  rewrite (CheckTransaction_sender_step w p st signer tx sender) by done.
  destruct (store_CheckAddress st (ToLower (Address_Hex sender))) as [[|] [e|]];
    try (by do 2 eexists).
  { do 2 eexists. split; [done|]. apply hitEvents_observes. }
  destruct (Transaction_To tx) as [to|]; [|by do 2 eexists].
  destruct (store_CheckAddress st (ToLower (Address_Hex to))) as [[|] [e|]];
    try (by do 2 eexists).
  do 2 eexists. split; [done|]. simpl. apply hitEvents_observes.
Qed.

(** X10. The verdict, in full.  With the sender recovered, on a [Guardian]
    with a filter, [CheckTransaction] returns [true] exactly when the sender
    is a hit, or the sender is a clean miss and there is a recipient that is
    a hit.  It writes one audit entry when it returns [true] and none when it
    returns [false], and it never asks the store more than twice. *)
Theorem CheckTransaction_verdict
        (w : World) (p : ptr) (st : BloomFilterStore) (signer : Signer) (tx : Transaction)
        (sender : Address) :
  guards w p st ->
  types_Sender signer tx = (sender, None) ->
  exists b evs,
    CheckTransaction p signer tx w = Ret b (addTrace w evs) /\
    (b = true <->
     hit st (Address_Hex sender) \/
     (miss st (Address_Hex sender) /\
      exists to, Transaction_To tx = Some to /\ hit st (Address_Hex to))) /\
    length (entries evs) = (if b then 1 else 0) /\
    length (queries evs) <= 2.
Proof.
  intros Hg Hs.
  rewrite (CheckTransaction_sender_step w p st signer tx sender) by done.
  unfold hit, miss.
  destruct (store_CheckAddress st (ToLower (Address_Hex sender))) as [[|] [e|]] eqn:Hfrom.
  - do 2 eexists. split; [done|]. split; [|simpl; split; [done|lia]].
    split; [done|]. by intros [?|[? _]].
  - do 2 eexists. split; [done|]. split; [|split].
    + split; [by left|done].
    + apply hitEvents_entries.
    + rewrite hitEvents_queries. simpl. lia.
  - do 2 eexists. split; [done|]. split; [|simpl; split; [done|lia]].
    split; [done|]. by intros [?|[? _]].
  - destruct (Transaction_To tx) as [to|] eqn:Hto.
    + destruct (store_CheckAddress st (ToLower (Address_Hex to))) as [[|] [e|]] eqn:Hrcpt.
      * do 2 eexists. split; [done|]. split; [|simpl; split; [done|lia]].
        split; [done|]. intros [?|[_ (to' & [= <-] & Hh)]]; [done|]. congruence.
      * do 2 eexists. split; [done|]. split; [|split].
        -- split; [|done]. intros _. right. split; [done|]. by exists to.
        -- change (entries (EvCheckAddress ?q :: ?r)) with (entries r).
           apply hitEvents_entries.
        -- change (queries (EvCheckAddress ?q :: ?r)) with (q :: queries r).
           rewrite hitEvents_queries. simpl. lia.
      * do 2 eexists. split; [done|]. split; [|simpl; split; [done|lia]].
        split; [done|]. intros [?|[_ (to' & [= <-] & Hh)]]; [done|]. congruence.
      * do 2 eexists. split; [done|]. split; [|simpl; split; [done|lia]].
        split; [done|]. intros [?|[_ (to' & [= <-] & Hh)]]; [done|]. congruence.
    + do 2 eexists. split; [done|]. split; [|simpl; split; [done|lia]].
      split; [done|]. by intros [?|[_ (to' & ? & _)]].
Qed.

(** X11. With the sender recovered, [CheckTransaction] returns on every
    [Guardian] that has a filter, having made nothing but log calls, lookups
    and audit writes; through a nil pointer, such as the one [GetInstance]
    returns with its error, it aborts on the dereference before any lookup
    (while it returns [false] there when the recovery fails). *)
Theorem CheckTransaction_needs_a_Guardian
        (w : World) (p : ptr) (signer : Signer) (tx : Transaction) (sender : Address) :
  types_Sender signer tx = (sender, None) ->
  (forall st, guards w p st ->
              exists b evs, CheckTransaction p signer tx w = Ret b (addTrace w evs) /\
                            forallb observes evs = true) /\
  (p = None -> CheckTransaction p signer tx w = Stuck NilDereference w).
Proof.
  intros Hs. split.
  - intros st Hg. by apply (CheckTransaction_returns_guarded w p st).
  - intros ->. unfold CheckTransaction. by rewrite Hs.
Qed.

(** ** [Reset], once more *)

(** X12. [Reset] is idempotent: called again through the same [Guardian]
    right after it returned, it returns again and leaves the world as the
    first call left it, without stopping anything a second time. *)
Theorem Reset_twice (w : World) (l : nat) (g : Guardian) :
  quiescent w ->
  heap w !! l = Some g ->
  exists w1,
    Reset (Some l) w = Ret tt w1 /\
    Reset (Some l) w1 = Ret tt w1 /\
    performAll [CallReset (Some l); CallReset (Some l)] w = Ret tt w1.
Proof.
  intros Hq Hl.
  set (w1 := {| instance := None; initOnce := false; heap := heap w;
                trace := trace w ++ stopEvents w |}).
  assert (Reset (Some l) w = Ret tt w1) as H1 by by apply (Reset_run w l g).
  assert (Reset (Some l) w1 = Ret tt w1) as H2.
  { rewrite (Reset_run w1 l g); [|split; [apply Hq|done]|done].
    unfold stopEvents, w1. simpl. by rewrite app_nil_r. }
  exists w1. split; [done|]. split; [done|].
  simpl. unfold bind. by rewrite H1, H2.
Qed.

(** X13. Whenever [Reset] returns, whatever the world and the receiver were,
    [instance] is nil and the guard is fresh: [GetInstance] reports
    "guardian is not initialized" right after, and the next [InitInstance]
    runs its body again.  With a disabled config it logs its warning,
    installs nothing and spends the new guard; with an enabled config it
    runs [newGuardian] and installs the pointer it returns.  The
    [Guardian]s are as before. *)
Theorem Reset_then_GetInstance (w w1 : World) (p : ptr) :
  Reset p w = Ret tt w1 ->
  instance w1 = None /\
  initOnce w1 = false /\
  heap w1 = heap w /\
  GetInstance w1 = Ret (None, Some "guardian is not initialized") w1 /\
  (forall config,
      Disabled config = true ->
      InitInstance config w1 =
      Ret tt {| instance := None; initOnce := true; heap := heap w1;
                trace := trace w1 ++ [EvLog LvlWarn "Guardian is disabled" []] |}) /\
  (forall config g w2,
      Disabled config = false ->
      newGuardian config w1 = Ret (g, None) w2 ->
      InitInstance config w1 =
      Ret tt {| instance := g; initOnce := true; heap := heap w2; trace := trace w2 |} /\
      g = Some (length (heap w))).
Proof.
  intros Hr. apply Reset_Ret in Hr as (Hh & Hi & Hd & _).
  split; [done|]. split; [done|]. split; [done|].
  split; [by apply GetInstance_nil|]. split.
  - intros config Hdis. by rewrite InitInstance_fresh, Hdis, Hi.
  - intros config g w2 Hen Hng. split.
    + by rewrite InitInstance_fresh, Hen, Hng.
    + destruct (newGuardian_cases config w1) as [evs [[e He]|[g' [Hg _]]]];
        rewrite <- Hh; congruence.
Qed.

(** X14. [Stop] does not uninstall: when it returns, [instance] and the guard
    are as before, so [GetInstance] keeps handing out the stopped [Guardian]
    and [InitInstance] stays without effect if it was. *)
Theorem Stop_keeps_the_singleton (w w1 : World) (p : ptr) :
  Stop p w = Ret tt w1 ->
  instance w1 = instance w /\ initOnce w1 = initOnce w /\ heap w1 = heap w /\
  returned (GetInstance w1) = returned (GetInstance w) /\
  (initOnce w = true -> forall config, InitInstance config w1 = Ret tt w1).
Proof.
  intros Hs. apply Stop_Ret in Hs as (l & g & _ & _ & _ & ->).
  repeat split; try done.
  - unfold GetInstance, bind, getInstanceVar. simpl. by destruct (instance w).
  - intros Hd config. by apply InitInstance_spent.
Qed.

(** X15. The life of an instance as the package's test drives it:
    [InitInstance], [GetInstance], [CheckTransaction] through the pointer,
    [Reset] through the pointer.  From a quiescent world with a fresh guard,
    with the snapshot, the watcher and the manager all available, the four
    calls return; the manager that was started is stopped; and the world is
    quiescent again with no instance and a fresh guard, so the cycle can be
    run again. *)
Theorem init_check_reset_cycle
        (w : World) (config : Config) (path : string) (st : BloomFilterStore)
        (nt : option FileWatcherNotifier) (signer : Signer) (tx : Transaction) :
  quiescent w ->
  initOnce w = false ->
  Disabled config = false ->
  filterFilePath config = inl path ->
  NewBloomFilterStoreFromFile path = (Some st, None) ->
  NewFileWatcherNotifier path 10 = (nt, None) ->
  manager_Start (NewReloadManager (Some st) nt) = None ->
  exists w' evs,
    performAll [CallInitInstance config; CallGetInstance;
                CallCheckTransaction (Some (length (heap w))) signer tx;
                CallReset (Some (length (heap w)))] w = Ret tt w' /\
    instance w' = None /\ initOnce w' = false /\ quiescent w' /\
    heap w' = heap w ++ [constructedGuardian (Some st) nt] /\
    trace w' = trace w ++ constructionEvents path (Some st) nt ++ evs
                       ++ [EvManagerStop (NewReloadManager (Some st) nt)] /\
    forallb observes evs = true.
Proof.
  intros [Hmu Hinst] Hfresh Hen Hpath Hst Hnt Hstart.
  set (g := constructedGuardian (Some st) nt).
  set (w1 := {| instance := Some (length (heap w)); initOnce := true;
                heap := heap w ++ [g];
                trace := trace w ++ constructionEvents path (Some st) nt |}).
  assert (InitInstance config w = Ret tt w1) as Hinit.
  { by rewrite InitInstance_fresh, Hen, newGuardian_run, Hpath, Hst, Hnt, Hstart. }
  assert (heap w1 !! length (heap w) = Some g) as Hl.
  { unfold w1. simpl. by rewrite lookup_app_r, Nat.sub_diag. }
  assert (guards w1 (Some (length (heap w))) st) as Hg by by exists (length (heap w)), g.
  destruct (CheckTransaction_returns_guarded w1 _ st signer tx Hg) as (b & evs & Hct & Hobs).
  assert (quiescent (addTrace w1 evs)) as Hq1.
  { split; simpl.
    - apply Forall_app. split; [done|]. by repeat constructor.
    - intros l [= <-]. rewrite length_app. simpl. lia. }
  eexists. exists evs. split.
  { simpl. unfold bind. rewrite Hinit. unfold GetInstance, getInstanceVar, bind, ret. simpl.
    rewrite Hct. by rewrite (Reset_run (addTrace w1 evs) (length (heap w)) g). }
  simpl. split; [done|]. split; [done|]. split.
  { split; [apply Hq1|done]. }
  split; [done|]. split; [|done].
  unfold stopEvents. simpl. rewrite lookup_app_r, Nat.sub_diag by done. simpl.
  by rewrite <- !app_assoc.
Qed.

End Further.

(** * What the verdict depends on *)

Section Independence.

Context {geth : GoEthereum} {adb : AddressDB}.

Lemma returned_load (p : ptr) (w : World) :
  returned (load p w) = match p with
                        | Some l => heap w !! l
                        | None => None
                        end.
Proof. unfold load. destruct p as [l|]; [|done]. by destruct (heap w !! l). Qed.

Lemma alike_addTrace (p : ptr) (w w' : World) (evs evs' : list Event) :
  alike p w w' ->
  queries evs = queries evs' ->
  entries evs = entries evs' ->
  alike p (addTrace w evs) (addTrace w' evs').
Proof.
  intros (Hl & Hq & He) Hq' He'. split; [|split]; simpl.
  - rewrite !returned_load in *. exact Hl.
  - by rewrite !queries_app, Hq, Hq'.
  - by rewrite !entries_app, He, He'.
Qed.

(** [checkAddress] under two loggers, in two worlds alike from [p]: the same
    answer, and worlds alike again. *)
Lemma checkAddress_alike (lg1 lg2 : FilteredEntryLogger) (rt : Runtime)
      (p : ptr) (tx : Transaction) (from addr : string) (w w' : World) :
  alike p w w' ->
  returned (checkAddress (logger := lg1) p tx from addr w)
  = returned (checkAddress (logger := lg2) p tx from addr w') /\
  alike p (world_of (checkAddress (logger := lg1) p tx from addr w))
          (world_of (checkAddress (logger := lg2) p tx from addr w')).
Proof.
  intros Ha. pose proof Ha as (Hl & Hq & He).
  rewrite !returned_load in Hl. rewrite !checkAddress_full.
  destruct p as [l|]; [|done].
  destruct (heap w !! l) as [g|], (heap w' !! l) as [g'|]; try done.
  injection Hl as <-.
  destruct (filter g) as [st|]; [|done].
  destruct (store_CheckAddress st (ToLower addr)) as [[|] [e|]]; simpl;
    try (split; [done|]; by apply alike_addTrace).
  split; [done|]. apply alike_addTrace; [done|..]; unfold hitEvents; simpl;
    rewrite ?queries_app, ?entries_app; by do 2 destruct (writeFilteredEntry _).
Qed.

Lemma CheckTransaction_alike (lg1 lg2 : FilteredEntryLogger) (rt : Runtime)
      (p : ptr) (signer : Signer) (tx : Transaction) (w w' : World) :
  alike p w w' ->
  returned (CheckTransaction (logger := lg1) p signer tx w)
  = returned (CheckTransaction (logger := lg2) p signer tx w') /\
  alike p (world_of (CheckTransaction (logger := lg1) p signer tx w))
          (world_of (CheckTransaction (logger := lg2) p signer tx w')).
Proof.
  intros Ha. unfold CheckTransaction.
  destruct (types_Sender signer tx) as [sender [e|]].
  { simpl. split; [done|]. by apply alike_addTrace. }
  destruct (checkAddress_alike lg1 lg2 rt p tx (Address_Hex sender) (Address_Hex sender)
                               w w' Ha) as [Hr Ha1].
  destruct (checkAddress (logger := lg1) p tx (Address_Hex sender) (Address_Hex sender) w)
    as [[filtered err] w1|why w1] eqn:E1;
    destruct (checkAddress (logger := lg2) p tx (Address_Hex sender) (Address_Hex sender) w')
    as [[filtered' err'] w1'|why' w1'] eqn:E2; try done.
  2:{ by rewrite (bind_Stuck _ _ _ _ _ E1), (bind_Stuck _ _ _ _ _ E2). }
  rewrite (bind_Ret _ _ _ _ _ E1), (bind_Ret _ _ _ _ _ E2).
  simpl in Hr, Ha1. injection Hr as <- <-.
  destruct err as [e|]; simpl.
  { split; [done|]. by apply alike_addTrace. }
  destruct filtered; simpl; [done|].
  destruct (Transaction_To tx) as [to|]; [|done].
  destruct (checkAddress_alike lg1 lg2 rt p tx (Address_Hex sender) (Address_Hex to)
                               w1 w1' Ha1) as [Hr2 Ha2].
  destruct (checkAddress (logger := lg1) p tx (Address_Hex sender) (Address_Hex to) w1)
    as [[filtered err] w2|why w2] eqn:E3;
    destruct (checkAddress (logger := lg2) p tx (Address_Hex sender) (Address_Hex to) w1')
    as [[filtered' err'] w2'|why' w2'] eqn:E4; try done.
  2:{ by rewrite (bind_Stuck _ _ _ _ _ E3), (bind_Stuck _ _ _ _ _ E4). }
  rewrite (bind_Ret _ _ _ _ _ E3), (bind_Ret _ _ _ _ _ E4).
  simpl in Hr2, Ha2. injection Hr2 as <- <-.
  destruct err as [e|]; simpl.
  { split; [done|]. by apply alike_addTrace. }
  by destruct filtered.
Qed.

Lemma alike_refl (p : ptr) (w : World) : alike p w w.
Proof. by split. Qed.

(** X16. Whether the audit write succeeds has no bearing on the verdict: under
    any two loggers [CheckTransaction] returns the same value (or aborts in
    both cases), asks the store the same questions and hands the same audit
    entries to [logFilteredEntry]; a failed write only adds a log line. *)
Theorem verdict_ignores_audit_failures
        (lg1 lg2 : FilteredEntryLogger) (rt : Runtime)
        (p : ptr) (signer : Signer) (tx : Transaction) (w : World) :
  returned (CheckTransaction (logger := lg1) p signer tx w)
  = returned (CheckTransaction (logger := lg2) p signer tx w) /\
  queries (trace (world_of (CheckTransaction (logger := lg1) p signer tx w)))
  = queries (trace (world_of (CheckTransaction (logger := lg2) p signer tx w))) /\
  entries (trace (world_of (CheckTransaction (logger := lg1) p signer tx w)))
  = entries (trace (world_of (CheckTransaction (logger := lg2) p signer tx w))).
Proof.
  destruct (CheckTransaction_alike lg1 lg2 rt p signer tx w w (alike_refl p w))
    as (Hr & _ & Hq & He).
  by repeat split.
Qed.

(** X18. A configured [FilterFilePath] makes construction independent of the
    platform: [newGuardian] and [InitInstance] then do the same on any two
    runtimes, whatever [runtime.GOOS] is and whether or not [user.Current]
    works; the "unsupported OS" error can only come up with an empty path. *)
Theorem explicit_path_ignores_platform
        (rt1 rt2 : Runtime) (config : Config) :
  FilterFilePath config <> "" ->
  filterFilePath (rt := rt1) config = inl (FilterFilePath config) /\
  newGuardian (rt := rt1) config = newGuardian (rt := rt2) config /\
  InitInstance (rt := rt1) config = InitInstance (rt := rt2) config.
Proof.
  intros Hne. apply String.eqb_neq in Hne.
  assert (forall rt : Runtime, filterFilePath (rt := rt) config = inl (FilterFilePath config))
    as Hpath by (intros rt; unfold filterFilePath; by rewrite Hne).
  assert (newGuardian (rt := rt1) config = newGuardian (rt := rt2) config) as Hng.
  { unfold newGuardian. by rewrite !Hpath. }
  split; [apply Hpath|]. split; [exact Hng|].
  unfold InitInstance. by rewrite Hng.
Qed.

End Independence.

(** * The instance at work *)

Module DemoRuns.

Import Demo.

#[local] Existing Instance linux.

Example InitInstance_running : InitInstance enabled startWorld = Ret tt running.
Proof. reflexivity. Qed.

Example ToLower_blocked : ToLower blocked = "0xf39fd6e51aad88f6f4ce6ab8827279cfffb92266".
Proof. reflexivity. Qed.

Example CheckTransaction_recipient_listed :
  returned (CheckTransaction (Some 0) tt (txFrom (Some clean) (Some blocked)) running) = Some true.
Proof. reflexivity. Qed.

Example CheckTransaction_unlisted :
  returned (CheckTransaction (Some 0) tt (txFrom (Some clean) (Some clean)) running) = Some false.
Proof. reflexivity. Qed.

Example CheckTransaction_sender_unreadable :
  returned (CheckTransaction (Some 0) tt (txFrom (Some cursed) (Some blocked)) running) = Some false.
Proof. reflexivity. Qed.

Example Reset_nil_startWorld : Reset None startWorld = Stuck NilDereference startWorld.
Proof. reflexivity. Qed.

Lemma running_guards : guards running (Some 0) demoStore.
Proof. by exists 0, theGuardian. Qed.

Lemma running_reachable : reachable running.
Proof. exact (reachable_call startWorld running (CallInitInstance enabled) reachable_start eq_refl). Qed.

Lemma idle_quiescent : quiescent idle.
Proof. split; [by repeat constructor|done]. Qed.

Lemma running_quiescent : quiescent running.
Proof. exact (reachable_quiescent running running_reachable). Qed.

(** ** The claims on this instance *)

(** The sender's lookup fails and the recipient is listed: the specification
    promises the recipient's verdict, [true], after a test of the recipient;
    [CheckTransaction] returns [false] and has asked about the sender only. *)
Lemma senderFailureFallsThrough_refuted : ~ senderFailureFallsThrough.
Proof.
  intros Hclaim.
  destruct (Hclaim running (Some 0) demoStore tt (txFrom (Some cursed) (Some blocked))
                   cursed blocked running_guards eq_refl eq_refl)
    as (evs & Hrun & _).
  - by exists false, "store unavailable".
  - vm_compute in Hrun. discriminate Hrun.
Qed.

Lemma CheckTransaction_sender_lookup_fails_witness :
  exists e evs,
    CheckTransaction (Some 0) tt (txFrom (Some cursed) (Some blocked)) running
    = Ret false (addTrace running evs) /\
    evs = [EvCheckAddress (ToLower cursed);
           EvLog LvlError "Error checking sender address" [("err", e)]] /\
    queries evs = [ToLower cursed] /\
    entries evs = [].
Proof.
  apply (CheckTransaction_sender_lookup_fails
           running (Some 0) demoStore tt (txFrom (Some cursed) (Some blocked)) cursed blocked).
  - exact running_guards.
  - reflexivity.
  - reflexivity.
  - exists false, "store unavailable". reflexivity.
Defined.

Lemma CheckTransaction_order_and_short_circuit_witness :
  (exists evs,
      CheckTransaction (Some 0) tt (txFrom (Some blocked) (Some blocked)) running
      = Ret true (addTrace running evs) /\
      queries evs = [ToLower blocked] /\
      entries evs = [{| filteredAddress := blocked; from := blocked;
                        transaction := txFrom (Some blocked) (Some blocked) |}]) /\
  (exists evs,
      CheckTransaction (Some 0) tt (txFrom (Some clean) (Some blocked)) running
      = Ret true (addTrace running evs) /\
      queries evs = [ToLower clean; ToLower blocked] /\
      entries evs = [{| filteredAddress := blocked; from := clean;
                        transaction := txFrom (Some clean) (Some blocked) |}]).
Proof.
  split.
  - destruct (CheckTransaction_order_and_short_circuit
                running (Some 0) demoStore tt (txFrom (Some blocked) (Some blocked)) blocked
                running_guards eq_refl)
      as (b & evs & Hrun & _ & Hsender & _).
    destruct (Hsender eq_refl) as (-> & Hq & He).
    exists evs. split; [exact Hrun|]. split; [exact Hq|exact He].
  - destruct (CheckTransaction_order_and_short_circuit
                running (Some 0) demoStore tt (txFrom (Some clean) (Some blocked)) clean
                running_guards eq_refl)
      as (b & evs & Hrun & _ & _ & Hrcpt).
    destruct (Hrcpt blocked eq_refl eq_refl eq_refl) as (-> & Hq & He).
    exists evs. split; [exact Hrun|]. split; [exact Hq|exact He].
Defined.

Lemma CheckTransaction_frame_witness :
  load (Some 0)
       (world_of (CheckTransaction (Some 0) tt (txFrom (Some clean) (Some blocked)) running))
  = Ret theGuardian
        (world_of (CheckTransaction (Some 0) tt (txFrom (Some clean) (Some blocked)) running)).
Proof.
  exact (proj1 (proj2 (CheckTransaction_frame
                         running (Some 0) tt (txFrom (Some clean) (Some blocked))))
               theGuardian eq_refl).
Defined.

Lemma CheckTransaction_sender_recovery_fails_witness :
  exists evs,
    CheckTransaction None tt (txFrom None (Some blocked)) running
    = Ret false (addTrace running evs) /\
    evs = [EvLog LvlError "Failed to extract 'from' address" [("err", "invalid signature")]] /\
    queries evs = [] /\ entries evs = [].
Proof.
  apply (CheckTransaction_sender_recovery_fails
           running None tt (txFrom None (Some blocked))
           "0x0000000000000000000000000000000000000000" "invalid signature").
  reflexivity.
Defined.

Lemma differOnlyInCase_blocked :
  strings.differOnlyInCase blocked "0xF39FD6E51AAD88F6F4CE6AB8827279CFFFB92266".
Proof.
  simpl. repeat split;
    first [ left; reflexivity
          | right; left; split; reflexivity
          | right; right; split; reflexivity ].
Qed.

Lemma checkAddress_case_insensitive_witness :
  (strings.differOnlyInCase blocked "0xf39fd6e51aad88f6f4ce6ab8827279cfffb92266" /\
   strings.hasUpper "0xf39fd6e51aad88f6f4ce6ab8827279cfffb92266" = false) /\
  (exists r evs evs',
      checkAddress (Some 0) (txFrom (Some clean) (Some blocked)) clean blocked running
      = Ret r (addTrace running evs) /\
      checkAddress (Some 0) (txFrom (Some clean) (Some blocked)) clean
                   "0xF39FD6E51AAD88F6F4CE6AB8827279CFFFB92266" running
      = Ret r (addTrace running evs') /\
      queries evs = ["0xf39fd6e51aad88f6f4ce6ab8827279cfffb92266"] /\
      queries evs' = ["0xf39fd6e51aad88f6f4ce6ab8827279cfffb92266"]).
Proof.
  destruct (checkAddress_case_insensitive
              running (Some 0) (txFrom (Some clean) (Some blocked)) clean blocked
              "0xF39FD6E51AAD88F6F4CE6AB8827279CFFFB92266")
    as (_ & Hlower & _ & Hfold).
  destruct (Hlower eq_refl) as (Hd & Hu & _).
  destruct (Hfold eq_refl differOnlyInCase_blocked) as (_ & Hboth & _).
  split; [split; [exact Hd|exact Hu]|].
  exact (Hboth demoStore running_guards).
Defined.

Lemma CheckTransaction_no_hit_witness :
  (exists evs,
      CheckTransaction (Some 0) tt (txFrom (Some clean) None) running
      = Ret false (addTrace running evs) /\
      queries evs = [ToLower clean] /\ entries evs = []) /\
  (exists evs,
      CheckTransaction (Some 0) tt (txFrom (Some clean) (Some cursed)) running
      = Ret false (addTrace running evs) /\
      entries evs = []).
Proof.
  split.
  - apply (proj1 (CheckTransaction_no_hit
                    running (Some 0) demoStore tt (txFrom (Some clean) None) clean
                    running_guards eq_refl ltac:(vm_compute; discriminate))).
    reflexivity.
  - apply (proj2 (CheckTransaction_no_hit
                    running (Some 0) demoStore tt (txFrom (Some clean) (Some cursed)) clean
                    running_guards eq_refl ltac:(vm_compute; discriminate))).
    intros to [= <-]. vm_compute. discriminate.
Defined.

(** An instance is installed, then [InitInstance] is called with a disabled
    config, as the package's test does: the call is without effect and
    [GetInstance] returns the instance and no error. *)
Lemma DisabledLeavesNoInstance_refuted : ~ DisabledLeavesNoInstance.
Proof.
  intros Hclaim.
  destruct (Hclaim running disabled running_reachable eq_refl) as (w1 & Hrun & _ & Hget).
  injection Hrun as <-.
  specialize (Hget [] running eq_refl eq_refl).
  vm_compute in Hget. discriminate Hget.
Qed.

Lemma InitInstance_disabled_witness :
  (exists w1,
      InitInstance disabled startWorld = Ret tt w1 /\
      heap w1 = [] /\
      instance w1 = None /\
      trace w1 = [EvLog LvlWarn "Guardian is disabled" []] /\
      GetInstance (world_of (performAll [CallInitInstance enabled; CallGetInstance] w1))
      = Ret (None, Some "guardian is not initialized")
            (world_of (performAll [CallInitInstance enabled; CallGetInstance] w1))) /\
  (InitInstance disabled running = Ret tt running /\
   GetInstance running = Ret (Some 0, None) running).
Proof.
  split.
  - destruct (InitInstance_disabled startWorld disabled eq_refl)
      as (w1 & Hrun & Hheap & Hinst & _ & _ & Htrace & Hlater & _).
    exists w1. split; [exact Hrun|]. split; [exact Hheap|]. split; [exact Hinst|].
    split; [exact (Htrace eq_refl)|].
    injection Hrun as <-.
    apply (Hlater eq_refl [CallInitInstance enabled; CallGetInstance]); reflexivity.
  - destruct (InitInstance_disabled running disabled eq_refl)
      as (w1 & Hrun & _ & _ & _ & Hsame & _ & _ & Hkept).
    rewrite (Hsame eq_refl) in Hrun, Hkept.
    split; [exact Hrun|exact (Hkept 0 eq_refl)].
Defined.

Lemma initOnce_spent_without_instance_witness :
  exists w1,
    InitInstance missing startWorld = Ret tt w1 /\
    initOnce w1 = true /\
    instance w1 = None /\
    InitInstance enabled w1 = Ret tt w1 /\
    GetInstance w1 = Ret (None, Some "guardian is not initialized") w1.
Proof.
  destruct (initOnce_spent_without_instance startWorld missing eq_refl eq_refl)
    as (w1 & Hrun & Hdone & Hinst & Hlater).
  - right. exists None, "open: no such file or directory". eexists. reflexivity.
  - exists w1. split; [exact Hrun|]. split; [exact Hdone|]. split; [exact Hinst|].
    destruct (Hlater [] w1 eq_refl eq_refl) as [Hinit Hget].
    split; [exact (Hinit enabled)|exact Hget].
Defined.

(** No instance was ever created and [Reset] is called through the nil
    pointer that [GetInstance] returns: the call aborts at [p.mu.Lock()]. *)
Lemma ResetAlwaysReturns_refuted : ~ ResetAlwaysReturns.
Proof.
  intros Hclaim.
  destruct (Hclaim startWorld None reachable_start I) as (w1 & Hrun & _).
  vm_compute in Hrun. discriminate Hrun.
Qed.

Lemma Reset_on_a_Guardian_witness :
  (exists w1,
      Reset (Some 0) idle = Ret tt w1 /\
      instance w1 = None /\ initOnce w1 = false /\ trace w1 = trace idle) /\
  (exists w1,
      Reset (Some 0) running = Ret tt w1 /\
      instance w1 = None /\ initOnce w1 = false /\
      trace w1 = trace running ++ [EvManagerStop snapshot] /\
      exists w2, InitInstance enabled w1 = Ret tt w2 /\ instance w2 = Some 1).
Proof.
  split.
  - destruct (Reset_on_a_Guardian idle 0 _ idle_quiescent eq_refl)
      as (w1 & Hrun & Hinst & Hdone & _ & _ & Hquiet & _).
    exists w1. split; [exact Hrun|]. split; [exact Hinst|]. split; [exact Hdone|].
    exact (Hquiet eq_refl).
  - destruct (Reset_on_a_Guardian running 0 _ running_quiescent eq_refl)
      as (w1 & Hrun & Hinst & Hdone & _ & Htrace & _ & Hinit).
    exists w1. split; [exact Hrun|]. split; [exact Hinst|]. split; [exact Hdone|].
    split; [exact Htrace|].
    injection Hrun as <-.
    exists (world_of (InitInstance enabled (world_of (Reset (Some 0) running)))).
    split; [|reflexivity].
    exact (proj1 (Hinit enabled (Some 1)
                        (world_of (newGuardian enabled (world_of (Reset (Some 0) running))))
                        eq_refl eq_refl)).
Defined.

Lemma default_snapshot_path_witness :
  filterFilePath enabled = inl "/home/geth/geth/guardian/bloom_filter.gob" /\
  (exists e, newGuardian (rt := windows) enabled startWorld = Ret (None, Some e) startWorld) /\
  exists w1, InitInstance (rt := windows) enabled startWorld = Ret tt w1 /\ instance w1 = None.
Proof.
  split.
  - exact (proj1 (proj1 (default_snapshot_path startWorld enabled eq_refl)
                        "/home/geth" "geth/guardian" eq_refl (or_introl (conj eq_refl eq_refl)))).
  - destruct (proj2 (default_snapshot_path (rt := windows) startWorld enabled eq_refl))
      as (Hng & w1 & Hrun & _ & _ & Hinst).
    + vm_compute. discriminate.
    + vm_compute. discriminate.
    + split; [exact Hng|]. exists w1. split; [exact Hrun|exact (Hinst eq_refl)].
Defined.

End DemoRuns.

(** * The further properties on the instance *)

Module DemoMore.

Import Demo.

#[local] Existing Instance linux.

Lemma startWorld_quiescent : quiescent startWorld.
Proof. split; [by constructor|done]. Qed.

Lemma Stop_any_number_of_times_witness :
  performAll (repeat (CallStop (Some 0)) 3) running
  = Ret tt (addTrace running [EvManagerStop snapshot; EvManagerStop snapshot;
                              EvManagerStop snapshot]).
Proof.
  exact (Stop_any_number_of_times running 0 theGuardian 3 eq_refl eq_refl).
Defined.

Lemma InitInstance_then_GetInstance_witness :
  exists w1,
    InitInstance enabled startWorld = Ret tt w1 /\
    GetInstance w1 = Ret (Some 0, None) w1 /\
    load (Some 0) w1 = Ret theGuardian w1.
Proof.
  destruct (InitInstance_then_GetInstance
              (geth := demoGeth) (adb := demoDB) (rt := linux)
              startWorld enabled snapshot (Some demoStore) (Some snapshot)
              eq_refl eq_refl eq_refl eq_refl eq_refl eq_refl)
    as (w1 & Hinit & Hget & Hload & _).
  exists w1. split; [exact Hinit|]. split; [exact Hget|exact Hload].
Defined.

Lemma Guardians_are_never_modified_witness :
  load (Some 0) restarted = Ret theGuardian restarted.
Proof.
  apply (proj2 (Guardians_are_never_modified
                  (geth := demoGeth) (logger := demoLogger) (adb := demoDB) (rt := linux)
                  [CallStop (Some 0); CallReset (Some 0); CallInitInstance enabled]
                  running restarted ltac:(vm_compute; reflexivity)) 0 theGuardian).
  reflexivity.
Defined.

Lemma at_most_one_construction_witness :
  exists gs evs,
    heap failed_first = [] ++ gs /\ trace failed_first = [] ++ evs /\
    length gs <= 1 /\ loads evs <= 1.
Proof.
  destruct (at_most_one_construction
              (geth := demoGeth) (logger := demoLogger) (adb := demoDB) (rt := linux)
              [CallInitInstance missing; CallInitInstance enabled; CallGetInstance]
              startWorld failed_first eq_refl ltac:(vm_compute; reflexivity))
    as (gs & evs & Hh & Ht & Hg & Hl & _).
  exists gs, evs. split; [exact Hh|]. split; [exact Ht|]. split; [exact Hg|exact Hl].
Defined.

Lemma instance_is_well_installed_witness : installedWell running.
Proof. exact (instance_is_well_installed running DemoRuns.running_reachable). Defined.

Lemma CheckTransaction_verdict_witness :
  exists evs,
    CheckTransaction (Some 0) tt transfer running = Ret true (addTrace running evs) /\
    length (entries evs) = 1.
Proof.
  destruct (CheckTransaction_verdict running (Some 0) demoStore tt transfer clean
                                     DemoRuns.running_guards eq_refl)
    as (b & evs & Hrun & Hiff & Hn & _).
  assert (b = true) as ->.
  { apply (proj2 Hiff). right. split; [reflexivity|]. exists blocked. split; reflexivity. }
  exists evs. split; [exact Hrun|exact Hn].
Defined.

Lemma CheckTransaction_needs_a_Guardian_witness :
  CheckTransaction None tt transfer running = Stuck NilDereference running /\
  exists b evs, CheckTransaction (Some 0) tt transfer running = Ret b (addTrace running evs) /\
                forallb observes evs = true.
Proof.
  split.
  - exact (proj2 (CheckTransaction_needs_a_Guardian running None tt transfer clean eq_refl)
                 eq_refl).
  - exact (proj1 (CheckTransaction_needs_a_Guardian running (Some 0) tt transfer clean eq_refl)
                 demoStore DemoRuns.running_guards).
Defined.

Lemma Reset_then_GetInstance_witness :
  instance wound_down = None /\
  initOnce wound_down = false /\
  GetInstance wound_down = Ret (None, Some "guardian is not initialized") wound_down /\
  trace (world_of (InitInstance disabled wound_down))
  = trace wound_down ++ [EvLog LvlWarn "Guardian is disabled" []] /\
  instance (world_of (InitInstance enabled wound_down)) = Some 1.
Proof.
  destruct (Reset_then_GetInstance
              (geth := demoGeth) (adb := demoDB) (rt := linux)
              (world_of (Stop (Some 0) running)) wound_down (Some 0)
              ltac:(vm_compute; reflexivity))
    as (Hi & Hd & _ & Hget & Hdis & Hen).
  split; [exact Hi|]. split; [exact Hd|]. split; [exact Hget|]. split.
  - rewrite (Hdis disabled eq_refl). reflexivity.
  - assert (newGuardian enabled wound_down
            = Ret (Some 1, None) (world_of (newGuardian enabled wound_down))) as Hng
      by (vm_compute; reflexivity).
    rewrite (proj1 (Hen enabled (Some 1) _ eq_refl Hng)).
    reflexivity.
Defined.

Lemma Stop_keeps_the_singleton_witness :
  returned (GetInstance (world_of (Stop (Some 0) running))) = returned (GetInstance running) /\
  InitInstance disabled (world_of (Stop (Some 0) running))
  = Ret tt (world_of (Stop (Some 0) running)).
Proof.
  destruct (Stop_keeps_the_singleton
              (geth := demoGeth) (adb := demoDB) (rt := linux)
              running (world_of (Stop (Some 0) running)) (Some 0)
              ltac:(vm_compute; reflexivity))
    as (_ & _ & _ & Hget & Hinit).
  split; [exact Hget|exact (Hinit eq_refl disabled)].
Defined.

Lemma Reset_twice_witness :
  exists w1, Reset (Some 0) running = Ret tt w1 /\ Reset (Some 0) w1 = Ret tt w1.
Proof.
  destruct (Reset_twice running 0 theGuardian DemoRuns.running_quiescent eq_refl)
    as (w1 & H1 & H2 & _).
  exists w1. split; [exact H1|exact H2].
Defined.

Lemma init_check_reset_cycle_witness :
  exists w',
    performAll [CallInitInstance enabled; CallGetInstance;
                CallCheckTransaction (Some 0) tt transfer; CallReset (Some 0)] startWorld
    = Ret tt w' /\
    instance w' = None /\ initOnce w' = false /\ quiescent w' /\ heap w' = [theGuardian].
Proof.
  destruct (init_check_reset_cycle
              (geth := demoGeth) (adb := demoDB) (rt := linux)
              startWorld enabled snapshot demoStore (Some snapshot) tt transfer
              startWorld_quiescent eq_refl eq_refl eq_refl eq_refl eq_refl eq_refl)
    as (w' & evs & Hrun & Hi & Hd & Hq & Hh & _).
  exists w'. split; [exact Hrun|]. split; [exact Hi|]. split; [exact Hd|].
  split; [exact Hq|exact Hh].
Defined.

Lemma explicit_path_ignores_platform_witness :
  filterFilePath (rt := windows) explicit = inl snapshot /\
  newGuardian (rt := windows) explicit = newGuardian (rt := linux) explicit /\
  InitInstance (rt := windows) explicit = InitInstance (rt := linux) explicit.
Proof.
  apply (explicit_path_ignores_platform windows linux explicit).
  vm_compute. discriminate.
Defined.

End DemoMore.
